(** * install_splunk_uf.py: batch installation of the Splunk Universal Forwarder

    A shallow embedding of [SplunkInstaller] (src/install_splunk_uf.py) and
    the properties of its per-host workflow and of its fleet run.

    Modelling conventions.
    - The SSH session is an external collaborator.  A remote host is a
      deterministic function of the history of the session: given the events
      seen so far and a call, it answers with a reply or the call raises.
    - Every function that talks to the host threads the session trace (the
      list of events in chronological order) and may raise a Python exception;
      exceptions carry their [str(e)] text.
    - [logger] calls of the per-host workflow only produce output and take no
      part in control flow; they are left out.  The records logged by the main
      thread ([load_config], [batch_install], [print_summary], [main]) are kept.
    - The configuration is the parsed JSON document with the keys the code
      reads; a key read with [dict.get] is an [option] field whose default is
      applied where the code applies it.
    - Text read from a host is taken in the ASCII range; the Python string
      primitives are given on that range.
    - The clock and [time.sleep] belong to the environment of the process:
      the pause itself is not modelled, only whether the call returns or
      raises. *)

From Stdlib Require Import ZArith List String Ascii Bool Lia Permutation.
From Stdlib Require Import DecimalString.
Import ListNotations.
Local Open Scope string_scope.
Local Open Scope Z_scope.

(** ** Python string primitives used by the script *)

Module Py.

(** [str.isspace] on the ASCII range: TAB..CR, FS..US and the blank. *)
Definition isspace (c : ascii) : bool :=
  let n := nat_of_ascii c in
  ((9 <=? n)%nat && (n <=? 13)%nat) || ((28 <=? n)%nat && (n <=? 32)%nat).

Fixpoint lstrip (s : string) : string :=
  match s with
  | String c s' => if isspace c then lstrip s' else s
  | EmptyString => EmptyString
  end.

(** Drops the trailing blanks: a character is kept when it is not a blank
    or when something is kept after it. *)
Fixpoint rstrip (s : string) : string :=
  match s with
  | EmptyString => EmptyString
  | String c s' =>
      match rstrip s' with
      | EmptyString => if isspace c then EmptyString else String c EmptyString
      | r => String c r
      end
  end.

(** [s.strip()] *)
Definition strip (s : string) : string := rstrip (lstrip s).

Definition lower_ascii (c : ascii) : ascii :=
  let n := nat_of_ascii c in
  if ((65 <=? n)%nat && (n <=? 90)%nat)%bool then ascii_of_nat (n + 32) else c.

(** [s.lower()] on the ASCII range *)
Fixpoint lower (s : string) : string :=
  match s with
  | EmptyString => EmptyString
  | String c s' => String (lower_ascii c) (lower s')
  end.

(** [s.startswith(p)] *)
Definition startswith (s p : string) : bool := String.prefix p s.

(** [s.endswith(p)] *)
Definition endswith (s p : string) : bool :=
  let n := String.length s in
  let k := String.length p in
  ((k <=? n)%nat && String.eqb (String.substring (n - k) k s) p)%bool.

(** [s.split(sep)[-1]]: the text after the last occurrence of [sep],
    the whole of [s] when [sep] does not occur. *)
Fixpoint last_segment (sep : ascii) (s : string) : string :=
  match s with
  | EmptyString => EmptyString
  | String c s' =>
      if Ascii.eqb c sep then last_segment sep s'
      else if existsb (Ascii.eqb sep) (list_ascii_of_string s')
           then last_segment sep s'
           else s
  end.

Definition digit_of (c : ascii) : option Z :=
  let n := nat_of_ascii c in
  if ((48 <=? n)%nat && (n <=? 57)%nat)%bool then Some (Z.of_nat (n - 48)) else None.

(** The digits of an [int] literal: decimal digits, a single underscore
    allowed between two digits. [acc] is the value read so far; [prev] tells
    whether the previous character was a digit. *)
Fixpoint int_digits (s : string) (acc : Z) (prev : bool) : option Z :=
  match s with
  | EmptyString => if prev then Some acc else None
  | String c s' =>
      match digit_of c with
      | Some d => int_digits s' (10 * acc + d) true
      | None =>
          if (Ascii.eqb c "_" && prev)%bool then
            match s' with
            | String c' _ =>
                match digit_of c' with
                | Some _ => int_digits s' acc false
                | None => None
                end
            | EmptyString => None
            end
          else None
      end
  end.

(** White space as [int] skips it around an ASCII literal: TAB..CR and the
    blank. *)
Definition isspace_c (c : ascii) : bool :=
  let n := nat_of_ascii c in
  ((9 <=? n)%nat && (n <=? 13)%nat) || (n =? 32)%nat.

Fixpoint lstrip_c (s : string) : string :=
  match s with
  | String c s' => if isspace_c c then lstrip_c s' else s
  | EmptyString => EmptyString
  end.

Fixpoint rstrip_c (s : string) : string :=
  match s with
  | EmptyString => EmptyString
  | String c s' =>
      match rstrip_c s' with
      | EmptyString => if isspace_c c then EmptyString else String c EmptyString
      | r => String c r
      end
  end.

(** The literal of [int(s)] without the white space around it and without
    its sign. *)
Definition int_body (s : string) : string :=
  match rstrip_c (lstrip_c s) with
  | String "+" s' => s'
  | String "-" s' => s'
  | s' => s'
  end.

(** The scan [int] makes of the digits before it converts them: the number
    of digits in the leading run of digits and underscores, [None] when the
    run has two underscores in a row or ends with one. [prev] tells whether
    the previous character was an underscore; the scan starts with [prev] set,
    which refuses a leading underscore. *)
Fixpoint scan_digits (s : string) (prev : bool) (digits : nat) : option nat :=
  match s with
  | EmptyString => if prev then None else Some digits
  | String c s' =>
      match digit_of c with
      | Some _ => scan_digits s' false (S digits)
      | None =>
          if Ascii.eqb c "_" then
            if prev then None else scan_digits s' true digits
          else if prev then None else Some digits
      end
  end.

(** [sys.get_int_max_str_digits()], at its default. *)
Definition int_max_str_digits : nat := 4300.

(** The literal has more digits than [int] converts. *)
Definition too_many_digits (s : string) : bool :=
  match scan_digits (int_body s) true 0 with
  | Some digits => (int_max_str_digits <? digits)%nat
  | None => false
  end.

(** [int(s)] for a [str] argument, base 10, on the ASCII range: white
    space around the literal is ignored, one optional sign, then the digits,
    at most 4300 of them. [None] stands for [ValueError]. *)
Definition int (s : string) : option Z :=
  if too_many_digits s then None
  else
    match rstrip_c (lstrip_c s) with
    | String "+" s' => int_digits s' 0 false
    | String "-" s' => option_map Z.opp (int_digits s' 0 false)
    | s' => int_digits s' 0 false
    end.

(** [str(n)] for an integer, as an f-string renders it. *)
Definition str_of_int (n : Z) : string := NilZero.string_of_int (Z.to_int n).

Definition hex_digit (n : nat) : ascii :=
  if (n <? 10)%nat then ascii_of_nat (48 + n) else ascii_of_nat (87 + n).

(** One character of [repr(s)], [quote] being the quote that encloses it. *)
Definition repr_char (quote c : ascii) : string :=
  let n := nat_of_ascii c in
  if (Ascii.eqb c quote || Ascii.eqb c "\")%bool then String "\" (String c EmptyString)
  else if (n =? 9)%nat then "\t"
  else if (n =? 10)%nat then "\n"
  else if (n =? 13)%nat then "\r"
  else if ((n <? 32)%nat || (n =? 127)%nat)%bool then
    String "\" (String "x" (String (hex_digit (n / 16)) (String (hex_digit (n mod 16))
                                                                 EmptyString)))
  else String c EmptyString.

Fixpoint repr_body (quote : ascii) (s : string) : string :=
  match s with
  | EmptyString => EmptyString
  | String c s' => repr_char quote c ++ repr_body quote s'
  end.

Definition contains (c : ascii) (s : string) : bool :=
  existsb (Ascii.eqb c) (list_ascii_of_string s).

(** The double quote. *)
Definition dquote : ascii := "034".

(** [repr(s)] on the ASCII range: single quotes, unless the text has a
    single quote and no double quote. *)
Definition repr (s : string) : string :=
  let quote : ascii :=
    if (contains "'" s && negb (contains dquote s))%bool then dquote else "'"%char in
  String quote (repr_body quote s ++ String quote EmptyString).

(** Text of the [ValueError] raised by [int(s)]. *)
Definition int_error (s : string) : string :=
  match scan_digits (int_body s) true 0 with
  | Some digits =>
      if (int_max_str_digits <? digits)%nat then
        "Exceeds the limit (4300 digits) for integer string conversion: value has "
        ++ str_of_int (Z.of_nat digits)
        ++ " digits; use sys.set_int_max_str_digits() to increase the limit"
      else "invalid literal for int() with base 10: " ++ repr s
  | None => "invalid literal for int() with base 10: " ++ repr s
  end.

(** Text of [str(KeyError(k))]. *)
Definition key_error (k : string) : string := "'" ++ k ++ "'".

End Py.

(** ** Run configuration (the parsed [config.json]) *)

(** One entry of ["servers"]. ['host'] is read with [server['host']] and is
    mandatory; the other keys are read with [server.get]. *)
Record Server := {
  host : string;
  port : option Z;
  username : option string;
  password : option string;
  key_file : option string;
  os_type : option string
}.

Record ResourceLimits := {
  min_memory_mb : option Z;
  min_disk_mb : option Z
}.

Record SplunkConfig := {
  download_url : option string;
  deployment_server : option string;
  receiving_indexer : option string
}.

(** The document as [json.load] returns it. Its integers have at most 4300
    digits: [json.load] raises on a longer one. *)
Record Config := {
  servers : option (list Server);
  max_concurrent_installs : option Z;
  delay_between_batches_seconds : option Z;
  resource_limits : option ResourceLimits;
  splunk_config : option SplunkConfig;
  force_reinstall : option bool;
  cleanup_after_install : option bool
}.

(** [d.get(key, default)] *)
Definition get {A} (field : option A) (default : A) : A :=
  match field with Some v => v | None => default end.

Definition no_limits : ResourceLimits :=
  {| min_memory_mb := None; min_disk_mb := None |}.

Definition no_splunk_config : SplunkConfig :=
  {| download_url := None; deployment_server := None; receiving_indexer := None |}.

(** ** The remote session *)

(** A call of [exec_command]: the command line and the [timeout] keyword. *)
Record call := { cmd : string; timeout : option Z }.

(** What a session has seen, in chronological order. *)
Inductive event :=
| Exec (c : call)
| Close.

Definition trace := list event.

(** A channel file ([stdout], [stderr]): [.read().decode()] gives the text
    or raises. *)
Inductive stream :=
| Data (text : string)
| ReadError (e : string).

Record reply := {
  exit_status : Z;       (* stdout.channel.recv_exit_status() *)
  stdout : stream;
  stderr : stream
}.

Inductive response :=
| ExecError (e : string)   (* exec_command raises *)
| Reply (r : reply).

(** An open [paramiko.SSHClient]: the host's answer to a call, given the
    events of the session so far. *)
Record Remote := { respond : trace -> call -> response }.

(** ** Exceptions and session state *)

Inductive outcome (A : Type) :=
| Return (a : A)
| Raise (e : string).
Arguments Return {A} a.
Arguments Raise {A} e.

Definition M (A : Type) : Type := trace -> outcome A * trace.

Definition ret {A} (a : A) : M A := fun t => (Return a, t).

Definition raise {A} (e : string) : M A := fun t => (Raise e, t).

Definition bind {A B} (m : M A) (k : A -> M B) : M B :=
  fun t =>
    match m t with
    | (Return a, t') => k a t'
    | (Raise e, t') => (Raise e, t')
    end.

(** [try: m  except Exception as e: h e] *)
Definition try_except {A} (m : M A) (h : string -> M A) : M A :=
  fun t =>
    match m t with
    | (Return a, t') => (Return a, t')
    | (Raise e, t') => h e t'
    end.

(** [try: m  finally: f] where [f] does not raise. *)
Definition try_finally {A} (m : M A) (f : trace -> trace) : M A :=
  fun t => let '(o, t') := m t in (o, f t').

Declare Scope session_scope.
Delimit Scope session_scope with session.
Notation "x <- m ;; k" := (bind m (fun x => k))
  (at level 61, m at next level, right associativity) : session_scope.
Notation "' pat <- m ;; k" := (bind m (fun x => match x with pat => k end))
  (at level 61, pat pattern, m at next level, right associativity) : session_scope.
Notation "m ;;; k" := (bind m (fun _ => k))
  (at level 61, right associativity) : session_scope.
Local Open Scope session_scope.

(** [ssh_client.exec_command(cmd, timeout=...)] *)
Definition exec_command (ssh_client : Remote) (c : call) : M reply :=
  fun t =>
    match respond ssh_client t c with
    | ExecError e => (Raise e, (t ++ [Exec c])%list)
    | Reply r => (Return r, (t ++ [Exec c])%list)
    end.

(** [f.read().decode().strip()] *)
Definition read_stripped (f : stream) : M string :=
  match f with
  | Data text => ret (Py.strip text)
  | ReadError e => raise e
  end.

(** [int(text)] *)
Definition to_int (text : string) : M Z :=
  match Py.int text with
  | Some n => ret n
  | None => raise (Py.int_error text)
  end.

(** [ssh_client.close()] *)
Definition close (t : trace) : trace := (t ++ [Close])%list.

Definition run (c : string) : call := {| cmd := c; timeout := None |}.

Definition run_within (c : string) (seconds : Z) : call :=
  {| cmd := c; timeout := Some seconds |}.

(** ** The environment of the process *)

(** The two ways [create_ssh_client] authenticates. *)
Inductive credential :=
| KeyFile (path : string)
| Password (pw : option string).

(** What [open] followed by [json.load] does on the configuration file. *)
Inductive config_file :=
| FileNotFound
| JSONDecodeError (e : string)
| OtherError (e : string)     (* any other exception: not caught *)
| Parsed (c : Config).

Record World := {
  path_exists : string -> bool;                       (* os.path.exists *)
  ssh_connect : string -> Z -> string -> credential -> string + Remote;
                                   (* client.connect: the error text, or the session *)
  now_iso : string -> string;      (* datetime.now().isoformat(), per host *)
  now_stamp : string;              (* the run's strftime stamp *)
  open_config : string -> config_file;
  sleep : Z -> option string
    (* time.sleep(seconds): None when the call returns after the pause, the
       text of the exception when it raises *)
}.

(** ** [SplunkInstaller]: the per-host steps *)

Record HostResult := {
  res_host : string;
  success : bool;
  message : string;
  timestamp : string
}.

(** [result['success'] = ok; result['message'] = msg] *)
Definition set_outcome (result : HostResult) (ok : bool) (msg : string) : HostResult :=
  {| res_host := res_host result; success := ok; message := msg;
     timestamp := timestamp result |}.

(** [result['message'] = msg] *)
Definition set_message (result : HostResult) (msg : string) : HostResult :=
  set_outcome result (success result) msg.

(** Truth value of an optional string, as [if key_file] takes it. *)
Definition truthy (s : option string) : bool :=
  match s with
  | Some (String _ _) => true
  | _ => false
  end.

Definition create_ssh_client (w : World) (host : string) (port : Z) (username : string)
    (password key_file : option string) : string + Remote :=
  match key_file with
  | Some path =>
      if (truthy key_file && path_exists w path)%bool
      then ssh_connect w host port username (KeyFile path)
      else ssh_connect w host port username (Password password)
  | None => ssh_connect w host port username (Password password)
  end.

Definition uptime_call : call := run "uptime".
Definition free_call : call := run "free -m | grep Mem | awk '{print $7}'".
Definition df_call : call := run "df -m /opt | tail -1 | awk '{print $4}'".

Definition check_system_resources (config : Config) (ssh_client : Remote)
  : M (bool * string) :=
  try_except
    (u <- exec_command ssh_client uptime_call ;;
     uptime_output <- read_stripped (stdout u) ;;
     m <- exec_command ssh_client free_call ;;
     mem_text <- read_stripped (stdout m) ;;
     available_mem <- to_int mem_text ;;
     d <- exec_command ssh_client df_call ;;
     disk_text <- read_stripped (stdout d) ;;
     available_disk <- to_int disk_text ;;
     let min_memory := get (min_memory_mb (get (resource_limits config) no_limits)) 512 in
     let min_disk := get (min_disk_mb (get (resource_limits config) no_limits)) 2048 in
     if available_mem <? min_memory then
       ret (false, "内存不足 (可用: " ++ Py.str_of_int available_mem ++ "MB, 需要: "
                   ++ Py.str_of_int min_memory ++ "MB)")
     else if available_disk <? min_disk then
       ret (false, "磁盘空间不足 (可用: " ++ Py.str_of_int available_disk ++ "MB, 需要: "
                   ++ Py.str_of_int min_disk ++ "MB)")
     else ret (true, "资源检查通过"))
    (fun e => ret (false, e)).

Definition installed_call : call := run "test -d /opt/splunkforwarder && echo 'exists'".

Definition check_if_installed (ssh_client : Remote) : M bool :=
  try_except
    (o <- exec_command ssh_client installed_call ;;
     result <- read_stripped (stdout o) ;;
     ret (String.eqb result "exists"))
    (fun e => ret false).

Definition uname_call : call := run "uname -s".

Definition downloaded_call (package_name : string) : call :=
  run ("test -f /tmp/" ++ package_name ++ " && echo 'exists'").

Definition download_cmd (package_name download_url : string) : string :=
  "cd /tmp && wget -q -O " ++ package_name ++ " '" ++ download_url
  ++ "' || curl -s -o " ++ package_name ++ " '" ++ download_url ++ "'".

Definition download_call (package_name download_url : string) : call :=
  run_within (download_cmd package_name download_url) 600.

Definition download_splunk_package (ssh_client : Remote) (download_url os_type : string)
  : M (bool * string) :=
  try_except
    (u <- exec_command ssh_client uname_call ;;
     uname_text <- read_stripped (stdout u) ;;
     let detected_os := Py.lower uname_text in
     let package_name := Py.last_segment "/" download_url in
     p <- exec_command ssh_client (downloaded_call package_name) ;;
     present <- read_stripped (stdout p) ;;
     if String.eqb present "exists" then ret (true, "/tmp/" ++ package_name)
     else
       o <- exec_command ssh_client (download_call package_name download_url) ;;
       if negb (exit_status o =? 0) then
         error_msg <- read_stripped (stderr o) ;;
         ret (false, "下载失败: " ++ error_msg)
       else ret (true, "/tmp/" ++ package_name))
    (fun e => ret (false, e)).

(** The install command for a package, by its extension; [None] when the
    extension is not one of the three known ones. *)
Definition install_cmd (package_path : string) : option string :=
  if (Py.endswith package_path ".tgz" || Py.endswith package_path ".tar.gz")%bool
  then Some ("cd /opt && tar xzf " ++ package_path)
  else if Py.endswith package_path ".rpm" then Some ("rpm -ivh " ++ package_path)
  else if Py.endswith package_path ".deb" then Some ("dpkg -i " ++ package_path)
  else None.

(** [os_type.lower() in ['linux', 'unix']] *)
Definition supported_os (os_type : string) : bool :=
  (String.eqb (Py.lower os_type) "linux" || String.eqb (Py.lower os_type) "unix")%bool.

Definition install_splunk (ssh_client : Remote) (package_path os_type : string)
  : M (bool * string) :=
  try_except
    (if supported_os os_type then
       match install_cmd package_path with
       | Some c =>
           o <- exec_command ssh_client (run_within c 300) ;;
           if negb (exit_status o =? 0) then
             error_msg <- read_stripped (stderr o) ;;
             ret (false, "安装失败: " ++ error_msg)
           else ret (true, "安装成功")
       | None => ret (false, "不支持的安装包格式: " ++ package_path)
       end
     else ret (false, "不支持的操作系统: " ++ os_type))
    (fun e => ret (false, e)).

Definition splunk : string := "/opt/splunkforwarder/bin/splunk".

Definition accept_license_call : call :=
  run_within (splunk ++ " start --accept-license --answer-yes --no-prompt") 60.
Definition stop_call : call := run_within (splunk ++ " stop") 60.
Definition ds_call (deployment_server : string) : call :=
  run_within (splunk ++ " set deploy-poll " ++ deployment_server ++ " -auth admin:changeme") 30.
Definition fwd_call (receiving_indexer : string) : call :=
  run_within (splunk ++ " add forward-server " ++ receiving_indexer ++ " -auth admin:changeme") 30.
Definition boot_start_call : call := run_within (splunk ++ " enable boot-start") 30.
Definition start_call : call := run_within (splunk ++ " start") 60.

(** [if address: exec_command(...)]: the step runs for a non-empty address. *)
Definition when_set (address : string) (step : M reply) : M unit :=
  if truthy (Some address) then (step ;;; ret tt) else ret tt.

Definition configure_splunk (config : Config) (ssh_client : Remote) : M (bool * string) :=
  try_except
    (let splunk_config := get (splunk_config config) no_splunk_config in
     let deployment_server := get (deployment_server splunk_config) EmptyString in
     let receiving_indexer := get (receiving_indexer splunk_config) EmptyString in
     exec_command ssh_client accept_license_call ;;;
     exec_command ssh_client stop_call ;;;
     when_set deployment_server (exec_command ssh_client (ds_call deployment_server)) ;;;
     when_set receiving_indexer (exec_command ssh_client (fwd_call receiving_indexer)) ;;;
     exec_command ssh_client boot_start_call ;;;
     o <- exec_command ssh_client start_call ;;
     if negb (exit_status o =? 0) then
       error_msg <- read_stripped (stderr o) ;;
       ret (false, "启动失败: " ++ error_msg)
     else ret (true, "配置成功"))
    (fun e => ret (false, e)).

Definition cleanup_call (package_path : string) : call := run ("rm -f " ++ package_path).

Definition cleanup (config : Config) (ssh_client : Remote) (package_path : string) : M unit :=
  try_except
    (if get (cleanup_after_install config) true
     then exec_command ssh_client (cleanup_call package_path) ;;; ret tt
     else ret tt)
    (fun e => ret tt).

(** [self.config['splunk_config']['download_url']] *)
Definition lookup_download_url (config : Config) : M string :=
  match splunk_config config with
  | None => raise (Py.key_error "splunk_config")
  | Some sc =>
      match download_url sc with
      | None => raise (Py.key_error "download_url")
      | Some url => ret url
      end
  end.

(** The [try] block of [install_on_server] once the session is open:
    steps 2 to 7. *)
Definition workflow (config : Config) (server : Server) (result : HostResult)
    (ssh_client : Remote) : M HostResult :=
  (* 2 *)
  installed <- check_if_installed ssh_client ;;
  if (installed && negb (get (force_reinstall config) false))%bool then
    ret (set_outcome result true "Splunk UF 已安装，跳过")
  else
  (* 3 *)
  '(resource_ok, resource_msg) <- check_system_resources config ssh_client ;;
  if negb resource_ok then ret (set_message result ("资源检查失败: " ++ resource_msg))
  else
  (* 4 *)
  download_url <- lookup_download_url config ;;
  let os_type := get (os_type server) "linux" in
  '(download_ok, package_path) <- download_splunk_package ssh_client download_url os_type ;;
  if negb download_ok then ret (set_message result ("下载失败: " ++ package_path))
  else
  (* 5 *)
  '(install_ok, install_msg) <- install_splunk ssh_client package_path os_type ;;
  if negb install_ok then ret (set_message result ("安装失败: " ++ install_msg))
  else
  (* 6 *)
  '(config_ok, config_msg) <- configure_splunk config ssh_client ;;
  if negb config_ok then ret (set_message result ("配置失败: " ++ config_msg))
  else
  (* 7 *)
  cleanup config ssh_client package_path ;;;
  ret (set_outcome result true "安装并配置成功").

(** [install_on_server]: the result (or the exception that escapes) and the
    trace of the session; the trace is empty when no session was opened. *)
Definition install_on_server (config : Config) (w : World) (server : Server)
  : outcome HostResult * trace :=
  let result := {| res_host := host server; success := false; message := EmptyString;
                   timestamp := now_iso w (host server) |} in
  match create_ssh_client w (host server) (get (port server) 22)
          (get (username server) "root") (password server) (key_file server) with
  | inl e => (Return (set_message result ("异常: " ++ e)), [])
  | inr ssh_client =>
      try_finally
        (try_except (workflow config server result ssh_client)
           (fun e => ret (set_message result ("异常: " ++ e))))
        close []
  end.

(** ** The main thread: loading, the fleet run, the summary *)

Inductive level := INFO | WARNING | ERROR.

(** State of the process as the main thread sees it. [submitted] records the
    servers handed to [executor.submit]; [written] the result files. *)
Record Proc := {
  results : list HostResult;                       (* self.results *)
  log : list (level * string);
  submitted : list Server;
  written : list (string * list HostResult)
}.

Definition start_state : Proc :=
  {| results := []; log := []; submitted := []; written := [] |}.

Definition logger (l : level) (msg : string) (st : Proc) : Proc :=
  {| results := results st; log := (log st ++ [(l, msg)])%list;
     submitted := submitted st; written := written st |}.

Definition append_result (r : HostResult) (st : Proc) : Proc :=
  {| results := (results st ++ [r])%list; log := log st;
     submitted := submitted st; written := written st |}.

Definition submit (s : Server) (st : Proc) : Proc :=
  {| results := results st; log := log st;
     submitted := (submitted st ++ [s])%list; written := written st |}.

Definition write_file (name : string) (st : Proc) : Proc :=
  {| results := results st; log := log st; submitted := submitted st;
     written := (written st ++ [(name, results st)])%list |}.

(** Outcome of [SplunkInstaller.__init__], that is of [load_config]. *)
Inductive startup :=
| Loaded (config : Config)
| SystemExit (code : Z)
| Uncaught (e : string).

Definition load_config (w : World) (config_file : string) (st : Proc) : startup * Proc :=
  match open_config w config_file with
  | Parsed c => (Loaded c, st)
  | FileNotFound =>
      (SystemExit 1, logger ERROR ("配置文件 " ++ config_file ++ " 不存在") st)
  | JSONDecodeError e =>
      (SystemExit 1, logger ERROR ("配置文件格式错误: " ++ e) st)
  | OtherError e => (Uncaught e, st)
  end.

Definition nl : string := String "010" EmptyString.
Definition rule : string := string_of_list_ascii (repeat "="%char 60).

Definition str_of_len {A} (l : list A) : string := Py.str_of_int (Z.of_nat (List.length l)).

Definition print_summary (w : World) (st : Proc) : Proc :=
  let st := logger INFO (nl ++ rule) st in
  let st := logger INFO "安装统计摘要" st in
  let st := logger INFO rule st in
  let total := Z.of_nat (List.length (results st)) in
  let success_count := Z.of_nat (List.length (filter success (results st))) in
  let failed := total - success_count in
  let st := logger INFO ("总计: " ++ Py.str_of_int total ++ " 台服务器") st in
  let st := logger INFO ("成功: " ++ Py.str_of_int success_count ++ " 台") st in
  let st := logger INFO ("失败: " ++ Py.str_of_int failed ++ " 台") st in
  let st :=
    if 0 <? failed then
      fold_left
        (fun st result =>
           if negb (success result)
           then logger INFO ("  - " ++ res_host result ++ ": " ++ message result) st
           else st)
        (results st) (logger INFO (nl ++ "失败的服务器:") st)
    else st in
  let result_file := "install_results_" ++ now_stamp w ++ ".json" in
  let st := write_file result_file st in
  let st := logger INFO (nl ++ "详细结果已保存到: " ++ result_file) st in
  logger INFO rule st.

(** [as_completed(futures)]: the futures in the order in which they
    complete. The order is not determined by the program; [picks] chooses, at
    each turn, which of the futures still pending completes next (the pick is
    taken modulo their number), and the futures left when [picks] runs out
    complete in submission order. *)
Fixpoint as_completed {A} (picks : list nat) (pending : list A) : list A :=
  match picks with
  | [] => pending
  | k :: picks' =>
      match pending with
      | [] => []
      | f :: _ =>
          let i := (k mod List.length pending)%nat in
          nth i pending f :: as_completed picks' (firstn i pending ++ skipn (S i) pending)%list
      end
  end.

(** The [except Exception as e] handler of the collection loop. *)
Definition record_exception (w : World) (server : Server) (e : string) (st : Proc) : Proc :=
  let st := logger ERROR ("处理服务器 " ++ host server ++ " 时发生异常: " ++ e) st in
  append_result
    {| res_host := host server; success := false; message := e;
       timestamp := now_iso w (host server) |} st.

(** Body of the [for future in as_completed(futures)] loop: the result of
    the future is appended, then the pause between batches is taken, and an
    exception of either the future or the pause goes to the handler. *)
Definition collect (w : World) (delay_between_batches : Z) (st : Proc)
    (fut : Server * outcome HostResult) : Proc :=
  let '(server, o) := fut in
  match o with
  | Return result =>
      let st := append_result result st in
      if 0 <? delay_between_batches then
        match sleep w delay_between_batches with
        | None => st
        | Some e => record_exception w server e st
        end
      else st
  | Raise e => record_exception w server e st
  end.

(** The futures of a run: one per server, each holding what
    [install_on_server] returns or raises. *)
Definition futures_of (config : Config) (w : World) (servers : list Server)
  : list (Server * outcome HostResult) :=
  map (fun server => (server, fst (install_on_server config w server))) servers.

(** [batch_install]. [ThreadPoolExecutor] raises [ValueError] for a
    [max_workers] that is not positive. *)
Definition batch_install (config : Config) (w : World) (picks : list nat)
    (dry_run : bool) (st : Proc) : outcome unit * Proc :=
  let servers := get (servers config) [] in
  let max_concurrent := get (max_concurrent_installs config) 3 in
  let delay_between_batches := get (delay_between_batches_seconds config) 5 in
  match servers with
  | [] => (Return tt, logger ERROR "配置文件中没有服务器列表" st)
  | _ :: _ =>
      let st := logger INFO ("准备在 " ++ str_of_len servers ++ " 台服务器上安装Splunk UF") st in
      let st := logger INFO ("最大并发数: " ++ Py.str_of_int max_concurrent) st in
      let st := logger INFO ("批次间延迟: " ++ Py.str_of_int delay_between_batches ++ "秒") st in
      if dry_run then
        let st := logger INFO "*** DRY RUN 模式 - 仅测试连接 ***" st in
        (Return tt,
         fold_left (fun st server => logger INFO ("将要处理: " ++ host server) st) servers st)
      else if max_concurrent <=? 0 then
        (Raise "max_workers must be greater than 0", st)
      else
        let st := fold_left (fun st server => submit server st) servers st in
        let st :=
          fold_left (collect w delay_between_batches)
            (as_completed picks (futures_of config w servers)) st in
        (Return tt, print_summary w st)
  end.

(** [main], after argument parsing: the exit status of the process and its
    final state. An exception that reaches the top level ends the process
    with status 1. *)
Definition main (w : World) (config_arg : string) (dry_run : bool) (picks : list nat)
  : Z * Proc :=
  let st := logger INFO "Splunk Universal Forwarder 批量安装工具启动" start_state in
  let st := logger INFO ("配置文件: " ++ config_arg) st in
  match load_config w config_arg st with
  | (SystemExit code, st) => (code, st)
  | (Uncaught e, st) => (1, st)
  | (Loaded config, st) =>
      match batch_install config w picks dry_run st with
      | (Raise e, st) => (1, st)
      | (Return _, st) => (0, logger INFO "批量安装任务完成" st)
      end
  end.

(** ** The worker pool

    [ThreadPoolExecutor(max_workers=K)] as [batch_install] uses it: [submit]
    puts the task on the work queue and starts a new worker thread when no
    idle worker is accounted for and fewer than [K] threads exist; a worker
    takes the task at the head of the queue, runs it, and signals the idle
    semaphore when the task is over. A workflow is active while a worker runs
    it. *)

Module Pool.
Section WorkerPool.

Variable task : Type.

Record state := {
  work_queue : list task;
  threads : list (option task);     (* per worker: the task it runs, if any *)
  idle_semaphore : nat;
  finished : list task
}.

Definition empty : state :=
  {| work_queue := []; threads := []; idle_semaphore := 0; finished := [] |}.

Inductive action :=
| Submit (x : task)      (* executor.submit, by the main thread *)
| Take (i : nat)         (* worker [i] takes the head of the queue *)
| Finish (i : nat).      (* the task of worker [i] returns or raises *)

(** [xs] with its [i]-th element replaced by [y]. *)
Fixpoint set_nth {A} (i : nat) (y : A) (xs : list A) : list A :=
  match xs, i with
  | [], _ => []
  | _ :: xs', O => y :: xs'
  | x :: xs', S i' => x :: set_nth i' y xs'
  end.

Definition step (max_workers : nat) (a : action) (s : state) : option state :=
  match a with
  | Submit x =>
      let q := (work_queue s ++ [x])%list in
      match idle_semaphore s with
      | S n =>
          Some {| work_queue := q; threads := threads s; idle_semaphore := n;
                  finished := finished s |}
      | O =>
          if (List.length (threads s) <? max_workers)%nat
          then Some {| work_queue := q; threads := (threads s ++ [None])%list;
                       idle_semaphore := 0; finished := finished s |}
          else Some {| work_queue := q; threads := threads s; idle_semaphore := 0;
                       finished := finished s |}
      end
  | Take i =>
      match nth_error (threads s) i, work_queue s with
      | Some None, x :: q =>
          Some {| work_queue := q; threads := set_nth i (Some x) (threads s);
                  idle_semaphore := idle_semaphore s; finished := finished s |}
      | _, _ => None
      end
  | Finish i =>
      match nth_error (threads s) i with
      | Some (Some x) =>
          Some {| work_queue := work_queue s; threads := set_nth i None (threads s);
                  idle_semaphore := S (idle_semaphore s);
                  finished := (finished s ++ [x])%list |}
      | _ => None
      end
  end.

(** The state after a sequence of actions, [None] when one of them is not
    enabled. *)
Fixpoint steps (max_workers : nat) (acts : list action) (s : state) : option state :=
  match acts with
  | [] => Some s
  | a :: acts' =>
      match step max_workers a s with
      | Some s' => steps max_workers acts' s'
      | None => None
      end
  end.

(** The tasks being run. *)
Fixpoint running (ths : list (option task)) : list task :=
  match ths with
  | [] => []
  | Some x :: ths' => x :: running ths'
  | None :: ths' => running ths'
  end.

Definition active (s : state) : nat := List.length (running (threads s)).

End WorkerPool.

Arguments work_queue {task} s.
Arguments threads {task} s.
Arguments idle_semaphore {task} s.
Arguments finished {task} s.
Arguments empty {task}.
Arguments Submit {task} x.
Arguments Take {task} i.
Arguments Finish {task} i.
Arguments step {task} max_workers a s.
Arguments steps {task} max_workers acts s.
Arguments running {task} ths.
Arguments active {task} s.

End Pool.

(** The pool of a fleet run: its width is [max_concurrent_installs]
    (3 when the key is absent). *)
Definition pool_width (config : Config) : nat :=
  Z.to_nat (get (max_concurrent_installs config) 3).


(** ** Classes of remote commands *)

Definition is_download_cmd (c : string) : bool := Py.startswith c "cd /tmp && wget ".

(** The commands of the fetch step: the OS probe, the presence test of the
    artifact and the download. *)
Definition is_fetch_cmd (c : string) : bool :=
  (String.eqb c "uname -s" || Py.startswith c "test -f /tmp/" || is_download_cmd c)%bool.

Definition is_install_cmd (c : string) : bool :=
  (Py.startswith c "cd /opt && tar xzf " || Py.startswith c "rpm -ivh "
   || Py.startswith c "dpkg -i ")%bool.

Definition is_config_cmd (c : string) : bool := Py.startswith c (splunk ++ " ").

Definition is_cleanup_cmd (c : string) : bool := Py.startswith c "rm -f ".

(** The two commands that push policy to the forwarder. *)
Definition is_policy_cmd (c : string) : bool :=
  (Py.startswith c (splunk ++ " set deploy-poll ")
   || Py.startswith c (splunk ++ " add forward-server "))%bool.

(** Whether the session saw a command of the class [p]. *)
Definition issued (p : string -> bool) (t : trace) : bool :=
  existsb (fun e => match e with Exec c => p (cmd c) | Close => false end) t.

(** Number of times the session was closed. *)
Definition closes (t : trace) : nat :=
  List.length (filter (fun e => match e with Close => true | Exec _ => false end) t).

(** ** Sample hosts and configurations *)

Module Sample.

Definition ok (out : string) : reply :=
  {| exit_status := 0; stdout := Data out; stderr := Data EmptyString |}.

Definition failed (code : Z) (err : string) : reply :=
  {| exit_status := code; stdout := Data EmptyString; stderr := Data err |}.

(** A host that answers by command line, whatever happened before; a
    command that is not listed succeeds with no output. *)
Definition scripted (answers : list (string * response)) : Remote :=
  {| respond := fun _ c =>
       match find (fun a => String.eqb (fst a) (cmd c)) answers with
       | Some a => snd a
       | None => Reply (ok EmptyString)
       end |}.

Definition url : string := "https://dl.example.com/uf/splunkforwarder-9.1.2.tgz".
Definition package : string := "splunkforwarder-9.1.2.tgz".

Definition metrics (mem disk : string) : list (string * response) :=
  [ (cmd uptime_call, Reply (ok " 10:02:11 up 12 days,  load average: 0.08, 0.03, 0.01"));
    (cmd free_call, Reply (ok (mem ++ nl)));
    (cmd df_call, Reply (ok (disk ++ nl))) ].

(** Plenty of memory and disk, nothing installed, nothing downloaded. *)
Definition fresh : Remote := scripted (metrics "4096" "20480").


(** As [fresh], with 100 MB of memory available. *)
Definition low_memory : Remote := scripted (metrics "100" "20480").

(** As [fresh], with memory and disk exactly at the default thresholds. *)
Definition at_threshold : Remote := scripted (metrics "512" "2048").

(** As [fresh], but the download fails. *)
Definition unreachable_mirror : Remote :=
  scripted ((download_cmd package url, Reply (failed 4 ("wget: host unreachable" ++ nl)))
            :: metrics "4096" "20480").

(** As [fresh], but the removal of the artifact raises. *)
Definition cleanup_raises : Remote :=
  scripted ((cmd (cleanup_call ("/tmp/" ++ package)), ExecError "SSH session not active")
            :: metrics "4096" "20480").

(** As [fresh], but the presence probe of the installation raises. *)
Definition probe_raises : Remote :=
  scripted ((cmd installed_call, ExecError "Channel closed.") :: metrics "4096" "20480").

(** As [fresh], but the license step of the configuration raises. *)
Definition license_raises : Remote :=
  scripted ((cmd accept_license_call, ExecError "timed out") :: metrics "4096" "20480").

(** As [fresh], but [free] prints nothing to parse. *)
Definition garbled : Remote := scripted (metrics "n/a" "20480").

(** As [fresh], with the artifact already in the temp area. *)
Definition cached : Remote :=
  scripted ((cmd (downloaded_call package), Reply (ok ("exists" ++ nl)))
            :: metrics "4096" "20480").

(** As [fresh], but the final start of the forwarder fails. *)
Definition start_fails : Remote :=
  scripted ((cmd start_call, Reply (failed 1 ("splunkd: port 8089 in use" ++ nl)))
            :: metrics "4096" "20480").

Definition server (h : string) (os : option string) : Server :=
  {| host := h; port := None; username := None; password := Some "secret";
     key_file := None; os_type := os |}.

Definition config (hosts : list Server) (width : option Z) : Config :=
  {| servers := Some hosts;
     max_concurrent_installs := width;
     delay_between_batches_seconds := Some 0;
     resource_limits := None;
     splunk_config :=
       Some {| download_url := Some url;
               deployment_server := Some "ds.example.com:8089";
               receiving_indexer := Some "idx.example.com:9997" |};
     force_reinstall := None;
     cleanup_after_install := None |}.

(** [time.sleep] as far as the clock of the interpreter goes: the delay is
    counted in nanoseconds on 63 bits, and a delay that does not fit, from
    9223372037 seconds on, raises [OverflowError]. *)
Definition clock_sleep (seconds : Z) : option string :=
  if 9223372036 <? seconds
  then Some "timestamp too large to convert to C _PyTime_t"
  else None.

(** A world in which [hosts] maps a host name to its behaviour; a host that
    is not listed refuses the connection. *)
Definition world (hosts : list (string * Remote)) (file : config_file) : World :=
  {| path_exists := fun _ => false;
     ssh_connect := fun h _ _ _ =>
       match find (fun a => String.eqb (fst a) h) hosts with
       | Some a => inr (snd a)
       | None => inl "[Errno 111] Connection refused"
       end;
     now_iso := fun _ => "2024-05-01T10:00:00";
     now_stamp := "20240501_100000";
     open_config := fun _ => file;
     sleep := clock_sleep |}.

(** As [config], with [force_reinstall] set. *)
Definition forced (hosts : list Server) : Config :=
  {| servers := Some hosts;
     max_concurrent_installs := None;
     delay_between_batches_seconds := None;
     resource_limits := Some {| min_memory_mb := Some 256; min_disk_mb := None |};
     splunk_config := splunk_config (config hosts None);
     force_reinstall := Some true;
     cleanup_after_install := Some false |}.

(** As [config], with a pause of 10^10 seconds between batches. *)
Definition slow (hosts : list Server) : Config :=
  {| servers := Some hosts;
     max_concurrent_installs := None;
     delay_between_batches_seconds := Some 10000000000;
     resource_limits := None;
     splunk_config := splunk_config (config hosts None);
     force_reinstall := None;
     cleanup_after_install := None |}.

(** As [config], without the ["splunk_config"] section. *)
Definition incomplete (hosts : list Server) : Config :=
  {| servers := Some hosts;
     max_concurrent_installs := None;
     delay_between_batches_seconds := None;
     resource_limits := None;
     splunk_config := None;
     force_reinstall := None;
     cleanup_after_install := None |}.

Definition web1 : Server := server "web1" None.
Definition win1 : Server := server "win1" (Some "windows").

End Sample.

(** ** What the statements below speak about *)

(** The session at [t] answers each of [calls] in turn: none of the
    [exec_command] calls raises. Exit statuses are left free. *)
Fixpoint answered (ssh_client : Remote) (t : trace) (calls : list call) : Prop :=
  match calls with
  | [] => True
  | c :: calls' =>
      (exists r, respond ssh_client t c = Reply r)
      /\ answered ssh_client (t ++ [Exec c])%list calls'
  end.

(** The number a metric command prints, as the resource check reads it:
    [None] when the call raises, the output cannot be read, or it is not an
    integer. *)
Definition reading (ssh_client : Remote) (t : trace) (c : call) : option Z :=
  match respond ssh_client t c with
  | Reply r =>
      match stdout r with
      | Data text => Py.int (Py.strip text)
      | ReadError _ => None
      end
  | ExecError _ => None
  end.

(** The output of a call can be read. *)
Definition readable (ssh_client : Remote) (t : trace) (c : call) : bool :=
  match respond ssh_client t c with
  | Reply r => match stdout r with Data _ => true | ReadError _ => false end
  | ExecError _ => false
  end.

(** The output of a call, stripped, is the word [exists]. *)
Definition says_exists (ssh_client : Remote) (t : trace) (c : call) : bool :=
  match respond ssh_client t c with
  | Reply r =>
      match stdout r with
      | Data text => String.eqb (Py.strip text) "exists"
      | ReadError _ => false
      end
  | ExecError _ => false
  end.

Definition min_memory (config : Config) : Z :=
  get (min_memory_mb (get (resource_limits config) no_limits)) 512.

Definition min_disk (config : Config) : Z :=
  get (min_disk_mb (get (resource_limits config) no_limits)) 2048.

(** The host, probed from the session state [t], is short of resources or
    cannot tell: the load cannot be read, or the available memory or disk
    cannot be read or parsed, or one of them is below its threshold. *)
Definition resources_short (config : Config) (ssh_client : Remote) (t : trace) : Prop :=
  let t1 := (t ++ [Exec uptime_call])%list in
  let t2 := (t1 ++ [Exec free_call])%list in
  readable ssh_client t uptime_call = false
  \/ reading ssh_client t1 free_call = None
  \/ (exists mem, reading ssh_client t1 free_call = Some mem /\ mem < min_memory config)
  \/ reading ssh_client t2 df_call = None
  \/ (exists disk, reading ssh_client t2 df_call = Some disk /\ disk < min_disk config).

(** The temp area of the host holds a file with the artifact's name: the
    presence test answers [exists] whenever it is asked. *)
Definition artifact_present (ssh_client : Remote) (package_name : string) : Prop :=
  forall t, says_exists ssh_client t (downloaded_call package_name) = true.

(** The OS probe of the fetch step is always answered. *)
Definition uname_answers (ssh_client : Remote) : Prop :=
  forall t, readable ssh_client t uname_call = true.

(** The result dictionary as [install_on_server] creates it. *)
Definition fresh_result (w : World) (server : Server) : HostResult :=
  {| res_host := host server; success := false; message := EmptyString;
     timestamp := now_iso w (host server) |}.

(** The session [install_on_server] opens for a server, if it opens one. *)
Definition session_of (w : World) (server : Server) : string + Remote :=
  create_ssh_client w (host server) (get (port server) 22)
    (get (username server) "root") (password server) (key_file server).

(** The commands of the configuration sequence that come before the final
    start. *)
Definition config_prelude (config : Config) : list call :=
  let sc := get (splunk_config config) no_splunk_config in
  let ds := get (deployment_server sc) EmptyString in
  let ri := get (receiving_indexer sc) EmptyString in
  ([accept_license_call; stop_call]
   ++ (if truthy (Some ds) then [ds_call ds] else [])
   ++ (if truthy (Some ri) then [fwd_call ri] else [])
   ++ [boot_start_call])%list.

(** The whole configuration sequence. *)
Definition config_sequence (config : Config) : list call :=
  (config_prelude config ++ [start_call])%list.

(** The two addresses the configuration step reads. *)
Definition deployment_server_of (config : Config) : string :=
  get (deployment_server (get (splunk_config config) no_splunk_config)) EmptyString.

Definition receiving_indexer_of (config : Config) : string :=
  get (receiving_indexer (get (splunk_config config) no_splunk_config)) EmptyString.

(** The result recorded for a future by the collection loop. *)
Definition result_of (w : World) (fut : Server * outcome HostResult) : HostResult :=
  match snd fut with
  | Return result => result
  | Raise e =>
      {| res_host := host (fst fut); success := false; message := e;
         timestamp := now_iso w (host (fst fut)) |}
  end.

(** The pause between batches of the configuration (5 seconds when the key
    is absent). *)
Definition pause_of (config : Config) : Z :=
  get (delay_between_batches_seconds config) 5.

(** The pause between batches, if one is taken, returns: [time.sleep] does
    not raise on it. *)
Definition pause_returns (w : World) (delay : Z) : Prop :=
  0 < delay -> sleep w delay = None.

(** The result a run records for a server. *)
Definition result_for (config : Config) (w : World) (server : Server) : HostResult :=
  result_of w (server, fst (install_on_server config w server)).

(** [t'] extends [t] by calls that all satisfy [P], and by nothing else. *)
Definition appends (P : call -> Prop) (t t' : trace) : Prop :=
  exists calls, t' = (t ++ map Exec calls)%list /\ Forall P calls.

(** Whatever it returns, [m] only issues calls that satisfy [P]. *)
Definition emits {A} (P : call -> Prop) (m : M A) : Prop :=
  forall t o t', m t = (o, t') -> appends P t t'.

(** [m] returns: no exception escapes it. *)
Definition total {A} (m : M A) : Prop :=
  forall t, exists a t', m t = (Return a, t').

(** The probes of the resource check. *)
Definition metric_call (c : call) : Prop := In c [uptime_call; free_call; df_call].

(** No constraint on the call. *)
Definition any_call (c : call) : Prop := True.

(** The first thing [m] does is to issue [c]. *)
Definition starts_with {A} (c : call) (m : M A) : Prop :=
  forall t o t', m t = (o, t') -> exists rest, t' = (t ++ Exec c :: rest)%list.

(** The two probes of the fetch step. *)
Definition probe_call (package_name : string) (c : call) : Prop :=
  c = uname_call \/ c = downloaded_call package_name.

(** The last step of the sequence: the final start and its verdict. *)
Definition final_start (ssh_client : Remote) : M (bool * string) :=
  o <- exec_command ssh_client start_call ;;
  if negb (exit_status o =? 0) then
    error_msg <- read_stripped (stderr o) ;;
    ret (false, "启动失败: " ++ error_msg)
  else ret (true, "配置成功").

(** The call is not the removal of the artifact. *)
Definition not_cleanup (c : call) : Prop := is_cleanup_cmd (cmd c) = false.

(** The state in which [main] reaches [load_config]. *)
Definition banner (config_arg : string) : Proc :=
  logger INFO ("配置文件: " ++ config_arg)
    (logger INFO "Splunk Universal Forwarder 批量安装工具启动" start_state).

(** The host, probed from the session state [t], is fit: the load can be
    read, and the available memory and disk are read as integers that are not
    below their thresholds. *)
Definition resources_fit (config : Config) (ssh_client : Remote) (t : trace) : Prop :=
  let t1 := (t ++ [Exec uptime_call])%list in
  let t2 := (t1 ++ [Exec free_call])%list in
  readable ssh_client t uptime_call = true
  /\ exists mem disk,
       reading ssh_client t1 free_call = Some mem
       /\ reading ssh_client t2 df_call = Some disk
       /\ min_memory config <= mem /\ min_disk config <= disk.

(** The calls a session sees when [calls] are sent one after the other
    until one of them raises: the calls up to the first one that raises, that
    one included. *)
Fixpoint sent_until_error (ssh_client : Remote) (t : trace) (calls : list call)
  : list call :=
  match calls with
  | [] => []
  | c :: calls' =>
      match respond ssh_client t c with
      | ExecError _ => [c]
      | Reply _ => c :: sent_until_error ssh_client (t ++ [Exec c])%list calls'
      end
  end.

(** The messages of the two success-like outcomes. *)
Definition skipped_message : string := "Splunk UF 已安装，跳过".
Definition installed_message : string := "安装并配置成功".

(** The prefixes under which [install_on_server] reports a failure: one per
    stage, and one for an exception. *)
Definition failure_prefixes : list string :=
  ["资源检查失败: "; "下载失败: "; "安装失败: "; "配置失败: "; "异常: "].

(** The cleanup command of a run, if the configuration asks for one. *)
Definition cleanup_calls (config : Config) (package_path : string) : list call :=
  if get (cleanup_after_install config) true then [cleanup_call package_path] else [].

(** The name has no [/] in it. *)
Definition no_slash (name : string) : bool :=
  negb (existsb (Ascii.eqb "/") (list_ascii_of_string name)).

(** The tasks handed to the pool by a schedule, in order. *)
Fixpoint submissions {task} (acts : list (Pool.action task)) : list task :=
  match acts with
  | [] => []
  | Pool.Submit x :: acts' => x :: submissions acts'
  | _ :: acts' => submissions acts'
  end.

(** Everything the pool holds: queued, running and finished tasks. *)
Definition held {task} (s : Pool.state task) : list task :=
  (Pool.work_queue s ++ Pool.running (Pool.threads s) ++ Pool.finished s)%list.

(** Once anything was submitted, the pool has a worker. *)
Definition staffed {task} (s : Pool.state task) : Prop :=
  (Pool.idle_semaphore s <> 0%nat \/ Pool.work_queue s <> []) -> Pool.threads s <> [].

(** The call belongs to the fetch step as far as the later stages are
    concerned: it is no install, configuration or cleanup command. *)
Definition before_install (c : call) : Prop :=
  is_install_cmd (cmd c) = false /\ is_config_cmd (cmd c) = false
  /\ is_cleanup_cmd (cmd c) = false.

(** As [Sample.fresh], but the extraction of the archive fails. *)
Definition broken_archive : Remote :=
  Sample.scripted
    (("cd /opt && tar xzf /tmp/" ++ Sample.package,
      Reply (Sample.failed 2 ("tar: Unexpected EOF in archive" ++ nl)))
     :: Sample.metrics "4096" "20480").

(** The lines of a dry run: one per server. *)
Definition dry_run_lines (hosts : list Server) : list (level * string) :=
  map (fun server => (INFO, "将要处理: " ++ host server)) hosts.

(** The lines of the summary that come before the failed hosts: the
    title between two rules, the three counts, and the heading of the list
    when there is a failed host. *)
Definition summary_head (rs : list HostResult) : list (level * string) :=
  let total := Z.of_nat (List.length rs) in
  let success_count := Z.of_nat (List.length (filter success rs)) in
  let failed := total - success_count in
  let counts :=
    [(INFO, nl ++ rule); (INFO, "安装统计摘要"); (INFO, rule);
     (INFO, "总计: " ++ Py.str_of_int total ++ " 台服务器");
     (INFO, "成功: " ++ Py.str_of_int success_count ++ " 台");
     (INFO, "失败: " ++ Py.str_of_int failed ++ " 台")] in
  let heading := if 0 <? failed then [(INFO, nl ++ "失败的服务器:")] else [] in
  (counts ++ heading)%list.

(** The lines of the summary that come after them. *)
Definition summary_tail (w : World) : list (level * string) :=
  [(INFO, nl ++ "详细结果已保存到: " ++ "install_results_" ++ now_stamp w ++ ".json");
   (INFO, rule)].

(** The line of the summary for a failed host. *)
Definition failure_line (result : HostResult) : level * string :=
  (INFO, "  - " ++ res_host result ++ ": " ++ message result).

(** The name of the result file of a run. *)
Definition result_file (w : World) : string :=
  "install_results_" ++ now_stamp w ++ ".json".

(** * Properties *)

(** ** The string primitives, on examples *)

Example strip_ex : Py.strip "  exists
" = "exists".
Proof. reflexivity. Qed.

Example int_ex : Py.int " 1_024 " = Some 1024 /\ Py.int "-7" = Some (-7)
  /\ Py.int EmptyString = None /\ Py.int "12MB" = None /\ Py.int "1__0" = None.
Proof. repeat split; reflexivity. Qed.

Example int_error_ex :
  Py.int_error "n/a" = "invalid literal for int() with base 10: 'n/a'"
  /\ Py.int_error "it's" = "invalid literal for int() with base 10: " ++ String Py.dquote "it's"
                           ++ String Py.dquote EmptyString
  /\ Py.int ("12" ++ String "028" EmptyString) = None.
Proof. repeat split; reflexivity. Qed.

Example last_segment_ex :
  Py.last_segment "/" "https://dl.example.com/uf/splunkforwarder-9.1.2.tgz"
  = "splunkforwarder-9.1.2.tgz".
Proof. reflexivity. Qed.

Example endswith_ex : Py.endswith "/tmp/uf.tar.gz" ".tar.gz" = true
  /\ Py.endswith "gz" ".tar.gz" = false.
Proof. split; reflexivity. Qed.

Example str_of_int_ex : Py.str_of_int 512 = "512" /\ Py.str_of_int (-3) = "-3".
Proof. split; reflexivity. Qed.

Example msg_ex : String.length "资源检查通过" = 18%nat.
Proof. reflexivity. Qed.

(** ** The session combinators *)

Section Combinators.

Context {A B : Type}.

Lemma appends_refl P t : appends P t t.
Proof. exists []. split; [now rewrite app_nil_r | constructor]. Qed.

Lemma appends_trans P t1 t2 t3 :
  appends P t1 t2 -> appends P t2 t3 -> appends P t1 t3.
Proof.
  intros [c1 [-> F1]] [c2 [-> F2]]. exists (c1 ++ c2)%list. split.
  - now rewrite map_app, app_assoc.
  - now apply Forall_app.
Qed.

Lemma appends_weaken (P Q : call -> Prop) t t' :
  (forall c, P c -> Q c) -> appends P t t' -> appends Q t t'.
Proof.
  intros PQ [cs [-> F]]. exists cs. split; [reflexivity|].
  eapply Forall_impl; eauto.
Qed.

Lemma emits_ret P (a : A) : emits P (ret a).
Proof. intros t o t' E. inversion E; subst. apply appends_refl. Qed.

Lemma emits_raise P e : emits P (@raise A e).
Proof. intros t o t' E. inversion E; subst. apply appends_refl. Qed.

Lemma emits_bind P (m : M A) (k : A -> M B) :
  emits P m -> (forall a, emits P (k a)) -> emits P (bind m k).
Proof.
  intros Hm Hk t o t' E. unfold bind in E.
  destruct (m t) as [[a|e] t1] eqn:Em.
  - eapply appends_trans; [eapply Hm; eauto | eapply Hk; eauto].
  - inversion E; subst. eapply Hm; eauto.
Qed.

Lemma emits_try_except P (m : M A) (h : string -> M A) :
  emits P m -> (forall e, emits P (h e)) -> emits P (try_except m h).
Proof.
  intros Hm Hh t o t' E. unfold try_except in E.
  destruct (m t) as [[a|e] t1] eqn:Em.
  - inversion E; subst. eapply Hm; eauto.
  - eapply appends_trans; [eapply Hm; eauto | eapply Hh; eauto].
Qed.

Lemma emits_weaken (P Q : call -> Prop) (m : M A) :
  (forall c, P c -> Q c) -> emits P m -> emits Q m.
Proof. intros PQ Hm t o t' E. eapply appends_weaken; eauto. Qed.

Lemma total_ret (a : A) : total (ret a).
Proof. intros t. now exists a, t. Qed.

Lemma total_try_except (m : M A) (h : string -> M A) :
  (forall e, total (h e)) -> total (try_except m h).
Proof.
  intros Hh t. unfold try_except.
  destruct (m t) as [[a|e] t1]; [now exists a, t1 | apply Hh].
Qed.

End Combinators.

Lemma emits_exec (P : call -> Prop) ssh_client c :
  P c -> emits P (exec_command ssh_client c).
Proof.
  intros Pc t o t' E. unfold exec_command in E.
  exists [c]. split; [|now constructor].
  destruct (respond ssh_client t c); inversion E; reflexivity.
Qed.

Lemma emits_read P f : emits P (read_stripped f).
Proof. destruct f; [apply emits_ret | apply emits_raise]. Qed.

Lemma emits_to_int P text : emits P (to_int text).
Proof. unfold to_int. destruct (Py.int text); [apply emits_ret | apply emits_raise]. Qed.

(** Steps through a session program, one construct at a time. *)
Ltac emits_step :=
  match goal with
  | |- emits _ (ret _) => apply emits_ret
  | |- emits _ (raise _) => apply emits_raise
  | |- emits _ (read_stripped _) => apply emits_read
  | |- emits _ (to_int _) => apply emits_to_int
  | |- emits _ (exec_command _ _) => apply emits_exec
  | |- emits _ (try_except _ _) => apply emits_try_except; [|intros ?]
  | |- emits _ (bind _ _) => apply emits_bind; [|intros ?]
  | |- emits _ (if ?b then _ else _) => destruct b
  | |- emits _ (match ?x with _ => _ end) => destruct x
  | |- emits _ (let _ := _ in _) => cbv zeta
  end.

(** ** The guards *)

Lemma check_if_installed_eq ssh_client t :
  check_if_installed ssh_client t
  = (Return (says_exists ssh_client t installed_call), (t ++ [Exec installed_call])%list).
Proof.
  unfold check_if_installed, says_exists, try_except, bind, exec_command.
  destruct (respond ssh_client t installed_call) as [e|r]; [reflexivity|].
  unfold read_stripped. destruct (stdout r); reflexivity.
Qed.

Lemma check_system_resources_emits config ssh_client :
  emits metric_call (check_system_resources config ssh_client).
Proof.
  unfold check_system_resources, metric_call.
  repeat emits_step; simpl; auto.
Qed.

Lemma check_system_resources_total config ssh_client :
  total (check_system_resources config ssh_client).
Proof. apply total_try_except. intros e. apply total_ret. Qed.

(** Unfolds the resource check down to the answers of the host. *)
Ltac unfold_check :=
  unfold check_system_resources, try_except, bind, exec_command, read_stripped, to_int,
    ret, raise.

(** The check fails closed: a host that is short of resources, or whose
    metrics cannot be read, is reported unfit. *)
Lemma check_system_resources_short config ssh_client t :
  resources_short config ssh_client t ->
  exists reason t',
    check_system_resources config ssh_client t = (Return (false, reason), t').
Proof.
  unfold resources_short, readable, reading, min_memory, min_disk.
  intros H. unfold_check.
  destruct (respond ssh_client t uptime_call) as [e|u]; [eauto|].
  destruct (stdout u) as [ut|e]; [|eauto].
  destruct (respond ssh_client (t ++ [Exec uptime_call])%list free_call) as [e|m]; [eauto|].
  destruct (stdout m) as [mt|e]; [|eauto].
  destruct (Py.int (Py.strip mt)) as [mem|] eqn:Emem; [|eauto].
  match goal with |- context [?a <? ?b] => destruct (a <? b) eqn:Lm end;
    [destruct (respond ssh_client _ df_call) as [e|d];
       [eauto | destruct (stdout d) as [dt|?]; [destruct (Py.int (Py.strip dt))|]; eauto]|].
  destruct (respond ssh_client ((t ++ [Exec uptime_call]) ++ [Exec free_call])%list df_call)
    as [e|d]; [eauto|].
  destruct (stdout d) as [dt|e]; [|eauto].
  destruct (Py.int (Py.strip dt)) as [disk|] eqn:Edisk; [|eauto].
  match goal with |- context [?a <? ?b] => destruct (a <? b) eqn:Ld end; [eauto|].
  exfalso. apply Z.ltb_ge in Lm, Ld.
  destruct H as [H|[H|[[x [H L]]|[H|[x [H L]]]]]]; try discriminate;
    inversion H; subst; lia.
Qed.

(** Conversely, the check passes only on readable metrics that meet both
    thresholds. *)
Lemma check_system_resources_passed config ssh_client t msg t' :
  check_system_resources config ssh_client t = (Return (true, msg), t') ->
  ~ resources_short config ssh_client t.
Proof.
  intros E S. destruct (check_system_resources_short _ _ _ S) as [reason [t'' E']].
  rewrite E in E'. discriminate.
Qed.

(** ** The workflow only issues commands; the session is closed by
    [install_on_server] alone *)

Ltac emits_any :=
  unfold check_if_installed, check_system_resources, download_splunk_package,
    install_splunk, configure_splunk, cleanup, lookup_download_url, when_set;
  repeat emits_step; exact I.

Lemma workflow_emits config server result ssh_client :
  emits any_call (workflow config server result ssh_client).
Proof. unfold workflow. emits_any. Qed.

Lemma bind_inv {A B} (m : M A) (k : A -> M B) t o t' :
  bind m k t = (o, t') ->
  (exists a t1, m t = (Return a, t1) /\ k a t1 = (o, t'))
  \/ (exists e, m t = (Raise e, t') /\ o = Raise e).
Proof.
  unfold bind. destruct (m t) as [[a|e] t1]; intros E.
  - left. eauto.
  - right. inversion E; subst. eauto.
Qed.

Lemma install_on_server_open config w server ssh_client :
  session_of w server = inr ssh_client ->
  install_on_server config w server
  = try_finally
      (try_except (workflow config server (fresh_result w server) ssh_client)
         (fun e => ret (set_message (fresh_result w server) ("异常: " ++ e))))
      close [].
Proof. unfold session_of, install_on_server. intros ->. reflexivity. Qed.

Lemma install_on_server_refused config w server e :
  session_of w server = inl e ->
  install_on_server config w server
  = (Return (set_message (fresh_result w server) ("异常: " ++ e)), []).
Proof. unfold session_of, install_on_server. intros ->. reflexivity. Qed.

(** The trace of a run with an open session: commands, then one close. *)
Lemma install_on_server_trace config w server ssh_client :
  session_of w server = inr ssh_client ->
  exists calls,
    snd (install_on_server config w server) = (map Exec calls ++ [Close])%list.
Proof.
  intros S. rewrite (install_on_server_open _ _ _ _ S).
  unfold try_finally, try_except.
  destruct (workflow config server (fresh_result w server) ssh_client [])
    as [[x|e] t] eqn:E;
    destruct (workflow_emits _ _ _ _ _ _ _ E) as [calls [-> _]];
    exists calls; reflexivity.
Qed.

(** [install_on_server] always returns a result, and the result is about
    the server it was given. *)
Lemma workflow_host config server result ssh_client t x t' :
  workflow config server result ssh_client t = (Return x, t') ->
  res_host x = res_host result.
Proof.
  unfold workflow, bind, ret. intros E.
  repeat match type of E with
         | context [match ?m ?s with _ => _ end] =>
             match type of m with
             | M _ => destruct (m s) as [[?|?] ?]
             end
         | context [let (_, _) := ?p in _] => destruct p
         | context [if ?b then _ else _] => destruct b
         | (Raise _, _) = (Return _, _) => discriminate E
         end;
    try discriminate E; inversion E; reflexivity.
Qed.

Lemma install_on_server_returns config w server :
  exists x, fst (install_on_server config w server) = Return x
            /\ res_host x = host server.
Proof.
  destruct (session_of w server) as [e|ssh_client] eqn:S.
  - rewrite (install_on_server_refused _ _ _ _ S). eexists. split; reflexivity.
  - rewrite (install_on_server_open _ _ _ _ S). unfold try_finally, try_except.
    destruct (workflow config server (fresh_result w server) ssh_client [])
      as [[x|e] t] eqn:E; simpl.
    + exists x. split; [reflexivity|]. apply (workflow_host _ _ _ _ _ _ _ E).
    + eexists. split; reflexivity.
Qed.

Lemma closes_after_calls calls : closes (map Exec calls ++ [Close])%list = 1%nat.
Proof. unfold closes. induction calls; simpl; auto. Qed.

Lemma issued_app p t1 t2 : issued p (t1 ++ t2)%list = (issued p t1 || issued p t2)%bool.
Proof. unfold issued. apply existsb_app. Qed.

Lemma issued_none (p : string -> bool) (P : call -> Prop) calls :
  (forall c, P c -> p (cmd c) = false) ->
  Forall P calls -> issued p (map Exec calls) = false.
Proof.
  intros PF F. induction F as [|c cs Pc F IH]; simpl; [reflexivity|].
  now rewrite (PF c Pc), IH.
Qed.

Lemma metric_call_class c :
  metric_call c ->
  is_fetch_cmd (cmd c) = false /\ is_install_cmd (cmd c) = false
  /\ is_config_cmd (cmd c) = false.
Proof.
  unfold metric_call. simpl.
  intros [<-|[<-|[<-|[]]]]; repeat split; reflexivity.
Qed.

Lemma bind_exec_starts {A} P ssh_client c (k : reply -> M A) :
  (forall a, emits P (k a)) -> starts_with c (bind (exec_command ssh_client c) k).
Proof.
  intros K t o t' E. apply bind_inv in E. unfold exec_command in E.
  destruct E as [[a [t1 [E1 E]]]|[e [E1 _]]].
  - destruct (K _ _ _ _ E) as [calls [-> _]].
    destruct (respond ssh_client t c); inversion E1; subst.
    exists (map Exec calls). now rewrite <- app_assoc.
  - destruct (respond ssh_client t c); inversion E1; subst. now exists [].
Qed.

Lemma try_except_starts {A} P c (m : M A) h :
  starts_with c m -> (forall e, emits P (h e)) -> starts_with c (try_except m h).
Proof.
  intros Sm H t o t' E. unfold try_except in E.
  destruct (m t) as [[a|e] t1] eqn:Em; destruct (Sm _ _ _ Em) as [rest ->].
  - inversion E; subst. eauto.
  - destruct (H _ _ _ _ E) as [calls [-> _]].
    exists (rest ++ map Exec calls)%list. now rewrite <- app_assoc.
Qed.

Lemma check_system_resources_starts config ssh_client :
  starts_with uptime_call (check_system_resources config ssh_client).
Proof.
  unfold check_system_resources.
  apply (try_except_starts any_call); [|intros e; apply emits_ret].
  apply (bind_exec_starts any_call). intros u. repeat emits_step; exact I.
Qed.

(** ** Claims about the guards *)



(** C2. A host that reaches the resource check (it is not skipped as
    already installed) and is short of resources -- available memory or disk
    below the configured threshold, or a metric that cannot be read or parsed
    -- fails closed: the check reports it unfit, the workflow ends with a
    failed result whose message names the resource check, and the session sees
    nothing but the probes of the two guards: no fetch, install or
    configuration command is issued. *)
Theorem resource_check_fails_closed config w server ssh_client :
  session_of w server = inr ssh_client ->
  says_exists ssh_client [] installed_call = false
    \/ get (force_reinstall config) false = true ->
  resources_short config ssh_client [Exec installed_call] ->
  exists reason calls,
    fst (check_system_resources config ssh_client [Exec installed_call])
      = Return (false, reason)
    /\ fst (install_on_server config w server)
       = Return {| res_host := host server; success := false;
                   message := "资源检查失败: " ++ reason;
                   timestamp := now_iso w (host server) |}
    /\ snd (install_on_server config w server)
       = (Exec installed_call :: map Exec calls ++ [Close])%list
    /\ Forall metric_call calls
    /\ issued is_fetch_cmd (snd (install_on_server config w server)) = false
    /\ issued is_install_cmd (snd (install_on_server config w server)) = false
    /\ issued is_config_cmd (snd (install_on_server config w server)) = false.
Proof.
  intros S G R.
  destruct (check_system_resources_short _ _ _ R) as [reason [t2 E]].
  destruct (check_system_resources_emits _ _ _ _ _ E) as [calls [-> F]].
  assert (W : workflow config server (fresh_result w server) ssh_client []
              = (Return (set_message (fresh_result w server) ("资源检查失败: " ++ reason)),
                 ([Exec installed_call] ++ map Exec calls)%list)).
  { unfold workflow, bind. rewrite check_if_installed_eq.
    assert (C : (says_exists ssh_client [] installed_call
                 && negb (get (force_reinstall config) false))%bool = false)
      by (destruct G as [-> | ->]; [reflexivity | apply andb_false_r]).
    rewrite C. cbn [app]. rewrite E. reflexivity. }
  exists reason, calls. rewrite E, (install_on_server_open _ _ _ _ S).
  unfold try_finally, try_except. rewrite W. cbn [fst snd close app].
  repeat split; auto.
  all: change (Exec installed_call :: map Exec calls ++ [Close])%list
         with ([Exec installed_call] ++ map Exec calls ++ [Close])%list;
       rewrite !issued_app;
       rewrite (issued_none _ metric_call calls) by (auto; intros c Hc;
         apply (metric_call_class c Hc));
       reflexivity.
Qed.

Lemma resource_check_fails_closed_witness :
  let w := Sample.world [("web1", Sample.low_memory)] FileNotFound in
  let config := Sample.config [Sample.web1] None in
  resources_short config Sample.low_memory [Exec installed_call]
  /\ exists reason calls,
       fst (check_system_resources config Sample.low_memory [Exec installed_call])
         = Return (false, reason)
       /\ fst (install_on_server config w Sample.web1)
          = Return {| res_host := "web1"; success := false;
                      message := "资源检查失败: " ++ reason;
                      timestamp := now_iso w "web1" |}
       /\ snd (install_on_server config w Sample.web1)
          = (Exec installed_call :: map Exec calls ++ [Close])%list
       /\ Forall metric_call calls
       /\ issued is_fetch_cmd (snd (install_on_server config w Sample.web1)) = false
       /\ issued is_install_cmd (snd (install_on_server config w Sample.web1)) = false
       /\ issued is_config_cmd (snd (install_on_server config w Sample.web1)) = false.
Proof.
  intros w config.
  assert (R : resources_short config Sample.low_memory [Exec installed_call]).
  { right. right. left. exists 100. split; [reflexivity | unfold min_memory; simpl; lia]. }
  split; [exact R|].
  exact (resource_check_fails_closed config w Sample.web1 Sample.low_memory
           eq_refl (or_introl eq_refl) R).
Defined.

(** ** Claims about the session *)

(** C8. Whenever [install_on_server] opens a session, the session is
    closed on every path out of the workflow: whatever the steps return or
    raise, the events of the session are commands followed by exactly one
    close, which is its last event, and the function still returns a result
    for the host. *)
Theorem session_always_closed config w server ssh_client :
  session_of w server = inr ssh_client ->
  exists calls result,
    snd (install_on_server config w server) = (map Exec calls ++ [Close])%list
    /\ closes (snd (install_on_server config w server)) = 1%nat
    /\ fst (install_on_server config w server) = Return result.
Proof.
  intros S. destruct (install_on_server_trace config _ _ _ S) as [calls E].
  destruct (install_on_server_returns config w server) as [x [R _]].
  exists calls, x. rewrite E. repeat split; auto using closes_after_calls.
Qed.

Lemma session_always_closed_witness :
  let w := Sample.world [("web1", Sample.fresh)] FileNotFound in
  let run := install_on_server (Sample.incomplete [Sample.web1]) w Sample.web1 in
  (exists calls result,
     snd run = (map Exec calls ++ [Close])%list
     /\ closes (snd run) = 1%nat
     /\ fst run = Return result)
  /\ fst run = Return {| res_host := "web1"; success := false;
                         message := "异常: 'splunk_config'";
                         timestamp := now_iso w "web1" |}.
Proof.
  intros w run. split; [|reflexivity].
  exact (session_always_closed (Sample.incomplete [Sample.web1]) w Sample.web1
           Sample.fresh eq_refl).
Defined.

(** ** Claims about the fetch step *)

Lemma probe_call_no_download package_name c :
  probe_call package_name c -> is_download_cmd (cmd c) = false.
Proof. intros [-> | ->]; reflexivity. Qed.

(** One fetch against a host that holds the artifact. *)
Lemma fetch_when_present ssh_client download_url os_type t :
  let package_name := Py.last_segment "/" download_url in
  says_exists ssh_client (t ++ [Exec uname_call])%list (downloaded_call package_name) = true ->
  (exists calls,
     snd (download_splunk_package ssh_client download_url os_type t)
       = (t ++ map Exec calls)%list
     /\ Forall (probe_call package_name) calls)
  /\ (readable ssh_client t uname_call = true ->
      download_splunk_package ssh_client download_url os_type t
      = (Return (true, "/tmp/" ++ package_name),
         (t ++ [Exec uname_call; Exec (downloaded_call package_name)])%list)).
Proof.
  intros package_name P.
  unfold download_splunk_package, try_except, bind, exec_command, read_stripped, readable.
  fold package_name. unfold says_exists in P.
  destruct (respond ssh_client t uname_call) as [e|u].
  - split; [|discriminate]. exists [uname_call]. split; [reflexivity|].
    constructor; [now left | constructor].
  - destruct (stdout u) as [ut|e]; unfold ret, raise; cbv beta iota.
    + destruct (respond ssh_client (t ++ [Exec uname_call])%list
                  (downloaded_call package_name)) as [e|p]; [discriminate|].
      destruct (stdout p) as [pt|e]; [|discriminate]. cbv beta iota. rewrite P.
      rewrite <- app_assoc. split; [|reflexivity].
      exists [uname_call; downloaded_call package_name]. split; [reflexivity|].
      constructor; [now left|]. constructor; [now right|]. constructor.
    + split; [|discriminate]. exists [uname_call]. split; [reflexivity|].
      constructor; [now left | constructor].
Qed.

(** C7. Fetch is idempotent. On a host whose temp area already holds a
    file with the artifact's derived name, two fetches in a row issue nothing
    but their probes, so no download command at all; and, the OS probe being
    answered, each of them returns the path of that file. *)
Theorem fetch_idempotent ssh_client download_url os_type t :
  let package_name := Py.last_segment "/" download_url in
  let first := download_splunk_package ssh_client download_url os_type t in
  let second := download_splunk_package ssh_client download_url os_type (snd first) in
  artifact_present ssh_client package_name ->
  (exists calls,
     snd second = (t ++ map Exec calls)%list
     /\ Forall (fun c => is_download_cmd (cmd c) = false) calls)
  /\ issued is_download_cmd (snd second) = issued is_download_cmd t
  /\ (uname_answers ssh_client ->
      fst first = Return (true, "/tmp/" ++ package_name)
      /\ fst second = Return (true, "/tmp/" ++ package_name)).
Proof.
  intros package_name first second P.
  destruct (fetch_when_present ssh_client download_url os_type t (P _))
    as [[c1 [E1 F1]] R1].
  destruct (fetch_when_present ssh_client download_url os_type (snd first) (P _))
    as [[c2 [E2 F2]] R2].
  fold package_name first in E1, R1. fold package_name second in E2, R2.
  assert (F : Forall (fun c => is_download_cmd (cmd c) = false) (c1 ++ c2)).
  { apply Forall_app. split; eapply Forall_impl; eauto using probe_call_no_download. }
  assert (E : snd second = (t ++ map Exec (c1 ++ c2))%list)
    by (rewrite E2, E1, map_app, app_assoc; reflexivity).
  split; [eauto|]. split.
  - rewrite E, issued_app.
    rewrite (issued_none _ _ _ (fun c H => H) F). apply orb_false_r.
  - intros U. split.
    + now rewrite (R1 (U _)).
    + now rewrite (R2 (U _)).
Qed.

Lemma fetch_idempotent_witness :
  artifact_present Sample.cached Sample.package
  /\ uname_answers Sample.cached
  /\ download_splunk_package Sample.cached Sample.url "linux"
       (snd (download_splunk_package Sample.cached Sample.url "linux" []))
     = (Return (true, "/tmp/splunkforwarder-9.1.2.tgz"),
        [Exec uname_call; Exec (downloaded_call Sample.package);
         Exec uname_call; Exec (downloaded_call Sample.package)]).
Proof.
  assert (P : artifact_present Sample.cached Sample.package) by (intros t; reflexivity).
  assert (U : uname_answers Sample.cached) by (intros t; reflexivity).
  split; [exact P|]. split; [exact U|].
  destruct (fetch_idempotent Sample.cached Sample.url "linux" [] P) as [_ [_ R]].
  destruct (R U) as [_ R2]. apply injective_projections; [exact R2 | reflexivity].
Defined.

(** ** The configuration sequence *)

(** When the host answers every command of the prelude, whatever their exit
    statuses, the sequence reaches the final start, which alone decides. *)
Lemma configure_splunk_answered config ssh_client t :
  answered ssh_client t (config_prelude config) ->
  configure_splunk config ssh_client t
  = try_except (final_start ssh_client) (fun e => ret (false, e))
      (t ++ map Exec (config_prelude config))%list.
Proof.
  unfold configure_splunk, config_prelude, when_set, final_start. cbv zeta.
  set (ds := get (deployment_server (get (splunk_config config) no_splunk_config)) EmptyString).
  set (ri := get (receiving_indexer (get (splunk_config config) no_splunk_config)) EmptyString).
  intros H.
  destruct (truthy (Some ds)), (truthy (Some ri)); cbn [app answered] in H.
  all: repeat match type of H with
         | _ /\ _ => let E := fresh "E" in destruct H as [[? E] H]
         end.
  all: unfold try_except, bind, exec_command, ret.
  all: repeat match goal with
         | E : respond _ _ _ = Reply _ |- _ => rewrite E; clear E; cbv beta iota
         end.
  all: cbn [map app]; repeat rewrite <- app_assoc; cbn [app]; reflexivity.
Qed.

Lemma install_cmd_not_cleanup package_path c :
  install_cmd package_path = Some c -> is_cleanup_cmd c = false.
Proof.
  unfold install_cmd.
  destruct (_ || _)%bool; [intros E; inversion E; reflexivity|].
  destruct (Py.endswith package_path ".rpm"); [intros E; inversion E; reflexivity|].
  destruct (Py.endswith package_path ".deb"); [intros E; inversion E; reflexivity|].
  discriminate.
Qed.

Lemma check_system_resources_not_cleanup config ssh_client :
  emits not_cleanup (check_system_resources config ssh_client).
Proof.
  eapply emits_weaken; [|apply check_system_resources_emits].
  unfold metric_call, not_cleanup. simpl. intros c [<-|[<-|[<-|[]]]]; reflexivity.
Qed.

Lemma download_splunk_package_not_cleanup ssh_client download_url os_type :
  emits not_cleanup (download_splunk_package ssh_client download_url os_type).
Proof. unfold download_splunk_package. repeat emits_step; reflexivity. Qed.

Lemma install_splunk_not_cleanup ssh_client package_path os_type :
  emits not_cleanup (install_splunk ssh_client package_path os_type).
Proof.
  unfold install_splunk. apply emits_try_except; [|intros e; apply emits_ret].
  destruct (supported_os os_type); [|apply emits_ret].
  destruct (install_cmd package_path) as [c|] eqn:E; [|apply emits_ret].
  repeat emits_step. apply (install_cmd_not_cleanup _ _ E).
Qed.

Lemma config_prelude_not_cleanup config : Forall not_cleanup (config_prelude config).
Proof.
  unfold config_prelude. cbv zeta.
  repeat (apply Forall_app; split); repeat constructor;
    match goal with |- Forall _ (if ?b then _ else _) => destruct b end;
    repeat constructor.
Qed.

(** ** Claims about configuration *)

(** C6. Take a host whose workflow gets through the install stage with
    success, and whose configuration sequence runs up to the final start
    (every earlier command of the sequence is answered, with any exit status)
    where the final start exits with a nonzero status and its error stream can
    be read. The host's result is then a failure whose message names the
    configuration stage and carries the stripped error stream; the session
    sees the configuration commands, the final start, and is closed: no
    cleanup command is issued. *)
Theorem start_failure_fails_host config w server ssh_client
    msg_r t_r sc url package_path t_f msg_i t_i o err :
  let os := get (os_type server) "linux" in
  session_of w server = inr ssh_client ->
  says_exists ssh_client [] installed_call = false
    \/ get (force_reinstall config) false = true ->
  check_system_resources config ssh_client [Exec installed_call]
    = (Return (true, msg_r), t_r) ->
  splunk_config config = Some sc -> download_url sc = Some url ->
  download_splunk_package ssh_client url os t_r = (Return (true, package_path), t_f) ->
  install_splunk ssh_client package_path os t_f = (Return (true, msg_i), t_i) ->
  answered ssh_client t_i (config_prelude config) ->
  respond ssh_client (t_i ++ map Exec (config_prelude config))%list start_call = Reply o ->
  exit_status o <> 0 ->
  stderr o = Data err ->
  fst (install_on_server config w server)
    = Return {| res_host := host server; success := false;
                message := "配置失败: 启动失败: " ++ Py.strip err;
                timestamp := now_iso w (host server) |}
  /\ snd (install_on_server config w server)
     = (t_i ++ map Exec (config_prelude config) ++ [Exec start_call; Close])%list
  /\ issued is_cleanup_cmd (snd (install_on_server config w server)) = false.
Proof.
  intros os S G Er Hsc Hurl Ef Ei A R X Herr.
  assert (C : configure_splunk config ssh_client t_i
              = (Return (false, "启动失败: " ++ Py.strip err),
                 (t_i ++ map Exec (config_prelude config) ++ [Exec start_call])%list)).
  { rewrite (configure_splunk_answered _ _ _ A).
    unfold final_start, try_except, bind, exec_command. rewrite R.
    apply Z.eqb_neq in X. rewrite X. cbn [negb]. rewrite Herr.
    unfold read_stripped, ret. now rewrite <- app_assoc. }
  assert (W : workflow config server (fresh_result w server) ssh_client []
              = (Return (set_message (fresh_result w server)
                           ("配置失败: " ++ "启动失败: " ++ Py.strip err)),
                 (t_i ++ map Exec (config_prelude config) ++ [Exec start_call])%list)).
  { unfold workflow, bind. rewrite check_if_installed_eq.
    assert (B : (says_exists ssh_client [] installed_call
                 && negb (get (force_reinstall config) false))%bool = false)
      by (destruct G as [-> | ->]; [reflexivity | apply andb_false_r]).
    rewrite B. cbn [app]. rewrite Er. cbn [negb].
    unfold lookup_download_url. rewrite Hsc, Hurl. unfold ret at 1.
    fold os. rewrite Ef. cbn [negb]. rewrite Ei. cbn [negb]. rewrite C. reflexivity. }
  rewrite (install_on_server_open _ _ _ _ S). unfold try_finally, try_except.
  rewrite W. cbn [fst snd]. unfold close. repeat split.
  - now rewrite <- !app_assoc.
  - destruct (check_system_resources_not_cleanup _ _ _ _ _ Er) as [c1 [-> F1]].
    destruct (download_splunk_package_not_cleanup _ _ _ _ _ _ Ef) as [c2 [-> F2]].
    destruct (install_splunk_not_cleanup _ _ _ _ _ _ Ei) as [c3 [-> F3]].
    rewrite !issued_app.
    rewrite (issued_none _ _ _ (fun c H => H) F1), (issued_none _ _ _ (fun c H => H) F2),
      (issued_none _ _ _ (fun c H => H) F3),
      (issued_none _ _ _ (fun c H => H) (config_prelude_not_cleanup config)).
    reflexivity.
Qed.

Lemma start_failure_fails_host_witness :
  let w := Sample.world [("web1", Sample.start_fails)] FileNotFound in
  let run := install_on_server (Sample.config [Sample.web1] None) w Sample.web1 in
  fst run
    = Return {| res_host := "web1"; success := false;
                message := "配置失败: 启动失败: splunkd: port 8089 in use";
                timestamp := now_iso w "web1" |}
  /\ issued is_cleanup_cmd (snd run) = false.
Proof.
  intros w run.
  edestruct (start_failure_fails_host (Sample.config [Sample.web1] None) w Sample.web1
               Sample.start_fails) as [H1 [_ H3]].
  - reflexivity.
  - left. reflexivity.
  - reflexivity.
  - reflexivity.
  - reflexivity.
  - reflexivity.
  - reflexivity.
  - cbn. repeat split; eexists; reflexivity.
  - reflexivity.
  - cbn. discriminate.
  - reflexivity.
  - split; [exact H1 | exact H3].
Defined.

Lemma append_assoc (a b c : string) : ((a ++ b) ++ c = a ++ b ++ c)%string.
Proof. induction a as [|x a IH]; simpl; [reflexivity | now rewrite IH]. Qed.

Lemma substring_all (p : string) : String.substring 0 (String.length p) p = p.
Proof. induction p as [|x p IH]; simpl; [reflexivity | now rewrite IH]. Qed.

Lemma substring_skip (s p : string) :
  String.substring (String.length s) (String.length p) (s ++ p) = p.
Proof. induction s as [|x s IH]; simpl; [apply substring_all | exact IH]. Qed.

Lemma length_append (s p : string) :
  String.length (s ++ p) = (String.length s + String.length p)%nat.
Proof. induction s as [|x s IH]; simpl; [reflexivity | now rewrite IH]. Qed.

Lemma endswith_append (s p : string) : Py.endswith (s ++ p) p = true.
Proof.
  unfold Py.endswith. rewrite length_append.
  replace (String.length s + String.length p - String.length p)%nat
    with (String.length s) by lia.
  rewrite substring_skip, String.eqb_refl, andb_true_r.
  apply Nat.leb_le. lia.
Qed.

Lemma truthy_nonempty (s : string) : s <> EmptyString -> truthy (Some s) = true.
Proof. destruct s; [congruence | reflexivity]. Qed.

Lemma final_start_trace ssh_client t :
  snd (try_except (final_start ssh_client) (fun e => ret (false, e)) t)
  = (t ++ [Exec start_call])%list.
Proof.
  unfold final_start, try_except, bind, exec_command.
  destruct (respond ssh_client t start_call) as [e|o]; [reflexivity|].
  destruct (negb (exit_status o =? 0)); [|reflexivity].
  unfold read_stripped. destruct (stderr o); reflexivity.
Qed.

Lemma configure_splunk_emits config ssh_client :
  emits (fun c => In c (config_sequence config)) (configure_splunk config ssh_client).
Proof.
  unfold configure_splunk, config_sequence, config_prelude, when_set. cbv zeta.
  repeat emits_step;
    repeat match goal with |- context [if ?b then _ else _] => destruct b end;
    cbn [app In]; tauto.
Qed.

(** C10. The two policy commands carry the administrative credential as
    the literal [admin:changeme]. Every command the configuration step issues
    belongs to the configuration sequence, in which each policy command ends
    with [-auth admin:changeme]; when the sequence is answered, a non-empty
    deployment-server address makes the session see
    [splunk set deploy-poll <address> -auth admin:changeme] and a non-empty
    receiving-indexer address
    [splunk add forward-server <address> -auth admin:changeme]; and two
    configurations that agree on these two addresses make the step behave
    alike, so no other field of the configuration reaches these commands. *)
Theorem admin_credential_is_literal config ssh_client t :
  let ds := deployment_server_of config in
  let ri := receiving_indexer_of config in
  (exists calls,
     snd (configure_splunk config ssh_client t) = (t ++ map Exec calls)%list
     /\ Forall (fun c => In c (config_sequence config)) calls)
  /\ (forall c, In c (config_sequence config) -> is_policy_cmd (cmd c) = true ->
      Py.endswith (cmd c) " -auth admin:changeme" = true)
  /\ (answered ssh_client t (config_prelude config) ->
      (ds <> EmptyString ->
       In (Exec (run_within (splunk ++ " set deploy-poll " ++ ds ++ " -auth admin:changeme") 30))
          (snd (configure_splunk config ssh_client t)))
      /\ (ri <> EmptyString ->
          In (Exec (run_within (splunk ++ " add forward-server " ++ ri
                                ++ " -auth admin:changeme") 30))
             (snd (configure_splunk config ssh_client t))))
  /\ (forall config',
        deployment_server_of config' = ds -> receiving_indexer_of config' = ri ->
        configure_splunk config' ssh_client t = configure_splunk config ssh_client t).
Proof.
  intros ds ri. split; [|split; [|split]].
  - destruct (configure_splunk config ssh_client t) as [o t'] eqn:E.
    exact (configure_splunk_emits _ _ _ _ _ E).
  - unfold config_sequence, config_prelude. cbv zeta.
    fold (deployment_server_of config) (receiving_indexer_of config). fold ds ri.
    intros c H.
    repeat (apply in_app_or in H; destruct H as [H|H]);
      repeat match type of H with
             | In _ (if ?b then _ else _) => destruct b
             | In _ (_ :: _) => destruct H as [<-|H]
             | In _ [] => destruct H
             end;
      try (intros X; discriminate X); intros _.
    + unfold ds_call, run_within, cmd.
      rewrite <- !append_assoc. apply endswith_append.
    + unfold fwd_call, run_within, cmd.
      rewrite <- !append_assoc. apply endswith_append.
  - intros A. rewrite (configure_splunk_answered _ _ _ A), final_start_trace.
    unfold config_prelude. cbv zeta.
    fold (deployment_server_of config) (receiving_indexer_of config). fold ds ri.
    split; intros N; rewrite (truthy_nonempty _ N);
      rewrite !map_app; repeat (rewrite in_app_iff || cbn [map In]); intuition.
  - intros config' D R. unfold configure_splunk. cbv zeta.
    fold (deployment_server_of config') (receiving_indexer_of config')
      (deployment_server_of config) (receiving_indexer_of config).
    fold ds ri. rewrite D, R. reflexivity.
Qed.

Lemma admin_credential_is_literal_witness :
  answered Sample.fresh [] (config_prelude (Sample.config [Sample.web1] None))
  /\ In (Exec (run_within
           "/opt/splunkforwarder/bin/splunk set deploy-poll ds.example.com:8089 -auth admin:changeme"
           30))
        (snd (configure_splunk (Sample.config [Sample.web1] None) Sample.fresh []))
  /\ In (Exec (run_within
           "/opt/splunkforwarder/bin/splunk add forward-server idx.example.com:9997 -auth admin:changeme"
           30))
        (snd (configure_splunk (Sample.config [Sample.web1] None) Sample.fresh [])).
Proof.
  assert (A : answered Sample.fresh [] (config_prelude (Sample.config [Sample.web1] None)))
    by (cbn; repeat split; eexists; reflexivity).
  split; [exact A|].
  destruct (admin_credential_is_literal (Sample.config [Sample.web1] None) Sample.fresh [])
    as [_ [_ [H _]]].
  destruct (H A) as [D R]. split; [apply D | apply R]; discriminate.
Defined.

(** ** Claims about the operating system type *)

(** What the code does with the operating system type: it is checked by the
    install step, not by the fetch step. For an os type other than linux or
    unix the install step returns the unsupported-OS error at once, without
    issuing any command; the fetch step does not look at the os type and
    behaves as for any other host. So a host of an unsupported type whose
    guards pass and whose fetch succeeds ends with a failure of the install
    stage, and its session holds the commands of the fetch step. *)
Theorem unsupported_os_rejected_by_install config w server ssh_client :
  let os := get (os_type server) "linux" in
  supported_os os = false ->
  (forall package_path t,
     install_splunk ssh_client package_path os t
     = (Return (false, "不支持的操作系统: " ++ os), t))
  /\ (forall url os' t,
        download_splunk_package ssh_client url os t
        = download_splunk_package ssh_client url os' t)
  /\ (forall msg_r t_r sc url package_path t_f,
        session_of w server = inr ssh_client ->
        says_exists ssh_client [] installed_call = false
          \/ get (force_reinstall config) false = true ->
        check_system_resources config ssh_client [Exec installed_call]
          = (Return (true, msg_r), t_r) ->
        splunk_config config = Some sc -> download_url sc = Some url ->
        download_splunk_package ssh_client url os t_r
          = (Return (true, package_path), t_f) ->
        install_on_server config w server
        = (Return {| res_host := host server; success := false;
                     message := "安装失败: 不支持的操作系统: " ++ os;
                     timestamp := now_iso w (host server) |},
           (t_f ++ [Close])%list)).
Proof.
  intros os U.
  assert (I : forall package_path t,
             install_splunk ssh_client package_path os t
             = (Return (false, "不支持的操作系统: " ++ os), t)).
  { intros p t. unfold install_splunk, try_except. rewrite U. reflexivity. }
  split; [exact I|]. split; [reflexivity|].
  intros msg_r t_r sc url package_path t_f S G Er Hsc Hurl Ef.
  rewrite (install_on_server_open _ _ _ _ S). unfold try_finally, try_except.
  assert (W : workflow config server (fresh_result w server) ssh_client []
              = (Return (set_message (fresh_result w server)
                           ("安装失败: " ++ "不支持的操作系统: " ++ os)), t_f)).
  { unfold workflow, bind. rewrite check_if_installed_eq.
    assert (B : (says_exists ssh_client [] installed_call
                 && negb (get (force_reinstall config) false))%bool = false)
      by (destruct G as [-> | ->]; [reflexivity | apply andb_false_r]).
    rewrite B. cbn [app]. rewrite Er. cbn [negb].
    unfold lookup_download_url. rewrite Hsc, Hurl. unfold ret at 1.
    fold os. rewrite Ef. cbn [negb]. rewrite I. reflexivity. }
  rewrite W. reflexivity.
Qed.

Lemma unsupported_os_rejected_by_install_witness :
  let w := Sample.world [("win1", Sample.fresh)] FileNotFound in
  let run := install_on_server (Sample.config [Sample.win1] None) w Sample.win1 in
  supported_os "windows" = false
  /\ fst run = Return {| res_host := "win1"; success := false;
                         message := "安装失败: 不支持的操作系统: windows";
                         timestamp := now_iso w "win1" |}
  /\ issued is_install_cmd (snd run) = false.
Proof.
  intros w run. split; [reflexivity|].
  destruct (unsupported_os_rejected_by_install (Sample.config [Sample.win1] None) w
              Sample.win1 Sample.fresh eq_refl) as [_ [_ H]].
  assert (E := H _ _ _ _ _ _ eq_refl (or_introl eq_refl) eq_refl eq_refl eq_refl eq_refl).
  unfold run. rewrite E. split; reflexivity.
Defined.

(** C5. The code breaks the claim. [download_splunk_package] is given the
    os type and probes the system with [uname -s], but uses neither: a host
    declared as [windows], otherwise fit, is sent the download command, and
    the unsupported-OS error only comes up afterwards, from the install step.
    The run below is that of the code on such a host. *)
Lemma unsupported_os_download_issued :
  let w := Sample.world [("win1", Sample.fresh)] FileNotFound in
  let run := install_on_server (Sample.config [Sample.win1] None) w Sample.win1 in
  supported_os (get (os_type Sample.win1) "linux") = false
  /\ issued is_download_cmd (snd run) = true
  /\ In (Exec (download_call Sample.package Sample.url)) (snd run)
  /\ fst run = Return {| res_host := "win1"; success := false;
                         message := "安装失败: 不支持的操作系统: windows";
                         timestamp := now_iso w "win1" |}
  /\ snd run
     = [Exec installed_call; Exec uptime_call; Exec free_call; Exec df_call;
        Exec uname_call; Exec (downloaded_call Sample.package);
        Exec (download_call Sample.package Sample.url); Close].
Proof. repeat split; try reflexivity. vm_compute. tauto. Qed.

(** ** The fleet run *)

Lemma split_at {A} (i : nat) (l : list A) (d : A) :
  (i < List.length l)%nat ->
  l = (firstn i l ++ nth i l d :: skipn (S i) l)%list.
Proof.
  revert l. induction i as [|i IH]; intros [|x l] L; simpl in *; try lia.
  - reflexivity.
  - f_equal. apply IH. lia.
Qed.

(** Whatever the completion order, [as_completed] yields each future once. *)
Lemma as_completed_perm {A} (picks : list nat) (pending : list A) :
  Permutation (as_completed picks pending) pending.
Proof.
  revert pending. induction picks as [|k picks IH]; intros pending.
  - apply Permutation_refl.
  - destruct pending as [|f rest]; [apply Permutation_refl|].
    cbn [as_completed]. remember (f :: rest) as pending eqn:E.
    set (i := (k mod List.length pending)%nat).
    assert (L : (i < List.length pending)%nat)
      by (apply Nat.mod_upper_bound; subst pending; discriminate).
    transitivity (nth i pending f :: firstn i pending ++ skipn (S i) pending)%list.
    + apply perm_skip, IH.
    + rewrite (split_at i pending f L) at 4. apply Permutation_middle.
Qed.

Lemma collect_results w delay futs st :
  pause_returns w delay ->
  results (fold_left (collect w delay) futs st)
  = (results st ++ map (result_of w) futs)%list.
Proof.
  intros L. revert st. induction futs as [|[server o] futs IH]; intros st; simpl.
  - now rewrite app_nil_r.
  - rewrite IH. destruct o as [r|e].
    + destruct (0 <? delay) eqn:P;
        [apply Z.ltb_lt in P; rewrite (L P)|];
        simpl; rewrite <- app_assoc; reflexivity.
    + simpl. rewrite <- app_assoc. reflexivity.
Qed.

Lemma collect_submitted w delay futs st :
  submitted (fold_left (collect w delay) futs st) = submitted st.
Proof.
  revert st. induction futs as [|[server o] futs IH]; intros st; simpl;
    [reflexivity|]. rewrite IH.
  destruct o; [destruct (0 <? delay); [destruct (sleep w delay)|]|]; reflexivity.
Qed.

Lemma fold_results {A} (f : Proc -> A -> Proc) (l : list A) st :
  (forall s a, results (f s a) = results s) ->
  results (fold_left f l st) = results st.
Proof.
  intros H. revert st. induction l as [|a l IH]; intros st; simpl;
    [reflexivity | now rewrite IH, H].
Qed.

Lemma fold_submitted {A} (f : Proc -> A -> Proc) (l : list A) st :
  (forall s a, submitted (f s a) = submitted s) ->
  submitted (fold_left f l st) = submitted st.
Proof.
  intros H. revert st. induction l as [|a l IH]; intros st; simpl;
    [reflexivity | now rewrite IH, H].
Qed.

Lemma print_summary_results w st : results (print_summary w st) = results st.
Proof.
  unfold print_summary. cbn [results logger write_file].
  match goal with |- context [if ?b then _ else _] => destruct b end;
    [|reflexivity].
  rewrite fold_results; [reflexivity|].
  intros s a. destruct (negb (success a)); reflexivity.
Qed.

Lemma print_summary_submitted w st : submitted (print_summary w st) = submitted st.
Proof.
  unfold print_summary. cbn [submitted logger write_file].
  match goal with |- context [if ?b then _ else _] => destruct b end;
    [|reflexivity].
  rewrite fold_submitted; [reflexivity|].
  intros s a. destruct (negb (success a)); reflexivity.
Qed.

Lemma submit_all_results servers st :
  results (fold_left (fun st server => submit server st) servers st) = results st.
Proof. apply fold_results. reflexivity. Qed.

Lemma submit_all_submitted servers st :
  submitted (fold_left (fun st server => submit server st) servers st)
  = (submitted st ++ servers)%list.
Proof.
  revert st. induction servers as [|s servers IH]; intros st; simpl.
  - now rewrite app_nil_r.
  - rewrite IH. simpl. now rewrite <- app_assoc.
Qed.

Lemma result_for_host config w server : res_host (result_for config w server) = host server.
Proof.
  unfold result_for, result_of.
  destruct (install_on_server_returns config w server) as [x [-> H]]. exact H.
Qed.

Lemma as_completed_map {A B} (g : A -> B) (picks : list nat) (pending : list A) :
  as_completed picks (map g pending) = map g (as_completed picks pending).
Proof.
  revert pending. induction picks as [|k picks IH]; intros pending; [reflexivity|].
  destruct pending as [|f rest]; [reflexivity|].
  cbn [as_completed map]. change (g f :: map g rest) with (map g (f :: rest)).
  rewrite length_map, map_nth, firstn_map, skipn_map, <- map_app, IH.
  reflexivity.
Qed.

(** The results a run appends, for the futures in completion order. *)
Lemma batch_install_results config w picks st :
  get (servers config) [] <> [] ->
  0 < get (max_concurrent_installs config) 3 ->
  pause_returns w (pause_of config) ->
  exists st',
    batch_install config w picks false st = (Return tt, st')
    /\ results st'
       = (results st
          ++ map (result_for config w) (as_completed picks (get (servers config) [])))%list
    /\ submitted st' = (submitted st ++ get (servers config) [])%list.
Proof.
  intros N K D. unfold batch_install.
  destruct (get (servers config) []) as [|s0 rest] eqn:E; [congruence|].
  destruct (get (max_concurrent_installs config) 3 <=? 0) eqn:L;
    [apply Z.leb_le in L; lia|].
  eexists. split; [reflexivity|]. split.
  - rewrite print_summary_results, (collect_results _ _ _ _ D), submit_all_results.
    cbn [results logger]. f_equal.
    unfold futures_of. rewrite as_completed_map, map_map. reflexivity.
  - rewrite print_summary_submitted, collect_submitted, submit_all_submitted.
    reflexivity.
Qed.

(** C1, as the code has it. In a run over a non-empty host list, not in
    dry-run mode, with a positive concurrency limit and a pause between
    batches on which [time.sleep] does not raise, [batch_install] returns and has
    appended exactly one result per server of the configuration, in completion
    order: the appended results are the results of the servers up to order, as
    many as there are servers, and host by host they name the servers of the
    configuration. The collection loop appends one record per future whatever
    the futures hold: the result of a future that returned, and for a future
    that raised the record of its handler, which names the server of the
    future, is a failure and carries the text of the exception. *)
Theorem one_result_per_host config w picks st :
  get (servers config) [] <> [] ->
  0 < get (max_concurrent_installs config) 3 ->
  pause_returns w (pause_of config) ->
  (exists st' rs,
     batch_install config w picks false st = (Return tt, st')
     /\ results st' = (results st ++ rs)%list
     /\ Permutation rs (map (result_for config w) (get (servers config) []))
     /\ List.length rs = List.length (get (servers config) [])
     /\ Permutation (map res_host rs) (map host (get (servers config) [])))
  /\ (forall (futs : list (Server * outcome HostResult)) st0,
        results (fold_left (collect w (pause_of config)) futs st0)
        = (results st0
           ++ map (fun fut =>
                     match snd fut with
                     | Return result => result
                     | Raise e =>
                         {| res_host := host (fst fut); success := false; message := e;
                            timestamp := now_iso w (host (fst fut)) |}
                     end) futs)%list).
Proof.
  intros N K D. split; [|intros futs st0; apply (collect_results _ _ _ _ D)].
  destruct (batch_install_results config w picks st N K D) as [st' [B [R _]]].
  exists st', (map (result_for config w) (as_completed picks (get (servers config) []))).
  assert (P : Permutation
                (map (result_for config w) (as_completed picks (get (servers config) [])))
                (map (result_for config w) (get (servers config) [])))
    by apply Permutation_map, as_completed_perm.
  repeat split; auto.
  - rewrite (Permutation_length P). apply length_map.
  - rewrite (Permutation_map res_host P), map_map.
    erewrite map_ext; [reflexivity|]. intros s. apply result_for_host.
Qed.

Lemma one_result_per_host_witness :
  let hosts := [Sample.web1; Sample.win1; Sample.server "db1" None] in
  let config := Sample.config hosts (Some 2) in
  let w := Sample.world [("web1", Sample.low_memory); ("win1", Sample.fresh)] FileNotFound in
  (exists st' rs,
     batch_install config w [2%nat; 0%nat] false start_state = (Return tt, st')
     /\ results st' = rs
     /\ map res_host rs = ["db1"; "web1"; "win1"]
     /\ map success rs = [false; false; false])
  /\ results (fold_left (collect w (pause_of config))
                [(Sample.web1, Raise "cannot schedule new futures after shutdown")]
                start_state)
     = [{| res_host := "web1"; success := false;
           message := "cannot schedule new futures after shutdown";
           timestamp := now_iso w "web1" |}].
Proof.
  intros hosts config w.
  destruct (one_result_per_host config w [2%nat; 0%nat] start_state)
    as [[st' [rs [B [R _]]]] F].
  - discriminate.
  - reflexivity.
  - discriminate.
  - split.
    + change (results st' = rs) in R.
      exists st', rs. split; [exact B|]. split; [exact R|].
      assert (E : results st' = results (snd (batch_install config w
                                                [2%nat; 0%nat] false start_state)))
        by (rewrite B; reflexivity).
      rewrite <- R, E. split; reflexivity.
    + exact (F [(Sample.web1, Raise "cannot schedule new futures after shutdown")]
               start_state).
Defined.

(** C1, as the claim has it, fails twice. With [max_concurrent_installs]
    set to 0 the pool cannot be created: the run over one host raises and no
    result is recorded. With a pause of 10^10 seconds between batches
    [time.sleep] raises after the result was appended, and the handler of the
    loop appends a second record for the same host. *)
Lemma no_result_without_workers :
  let config := Sample.config [Sample.web1] (Some 0) in
  let w := Sample.world [("web1", Sample.fresh)] (Parsed config) in
  let slow := batch_install (Sample.slow [Sample.web1]) w [] false start_state in
  (get (servers config) [] = [Sample.web1]
   /\ fst (batch_install config w [] false start_state)
      = Raise "max_workers must be greater than 0"
   /\ results (snd (batch_install config w [] false start_state)) = [])
  /\ (get (servers (Sample.slow [Sample.web1])) [] = [Sample.web1]
      /\ fst slow = Return tt
      /\ map res_host (results (snd slow)) = ["web1"; "web1"]
      /\ map message (results (snd slow))
         = ["安装并配置成功"; "timestamp too large to convert to C _PyTime_t"]).
Proof. repeat split. Qed.

(** ** The exit status of the process *)

Lemma main_parsed w config_arg dry_run picks config :
  open_config w config_arg = Parsed config ->
  main w config_arg dry_run picks
  = match batch_install config w picks dry_run (banner config_arg) with
    | (Raise e, st) => (1, st)
    | (Return _, st) => (0, logger INFO "批量安装任务完成" st)
    end.
Proof. intros H. unfold main, load_config, banner. rewrite H. reflexivity. Qed.







(** ** The worker pool *)

Section PoolFacts.

Context {task : Type}.
Implicit Types (s : Pool.state task) (ths : list (option task)).

Lemma set_nth_length {A} i (y : A) xs :
  List.length (Pool.set_nth i y xs) = List.length xs.
Proof.
  revert i. induction xs as [|x xs IH]; intros [|i]; simpl; auto.
Qed.

Lemma running_le ths : (List.length (Pool.running ths) <= List.length ths)%nat.
Proof. induction ths as [|[x|] ths IH]; simpl; lia. Qed.

(** When as many tasks run as there are workers, no worker is idle. *)
Lemma running_full ths i :
  List.length (Pool.running ths) = List.length ths -> nth_error ths i <> Some None.
Proof.
  revert i. induction ths as [|[x|] ths IH]; intros i E.
  - destruct i; discriminate.
  - destruct i as [|i]; [discriminate|]. simpl in *. apply IH. lia.
  - simpl in E. pose proof (running_le ths). lia.
Qed.

(** The pool never holds more than [max_workers] threads. *)
Lemma step_threads max_workers a s s' :
  Pool.step max_workers a s = Some s' ->
  (List.length (Pool.threads s) <= max_workers)%nat ->
  (List.length (Pool.threads s') <= max_workers)%nat.
Proof.
  destruct a as [x|i|i]; simpl.
  - destruct (Pool.idle_semaphore s).
    + destruct (List.length (Pool.threads s) <? max_workers)%nat eqn:L;
        intros E; inversion E; subst; simpl; auto.
      rewrite length_app. simpl. apply Nat.ltb_lt in L. lia.
    + intros E; inversion E; subst; simpl; auto.
  - destruct (nth_error (Pool.threads s) i) as [[y|]|]; try discriminate.
    destruct (Pool.work_queue s); try discriminate.
    intros E; inversion E; subst; simpl. now rewrite set_nth_length.
  - destruct (nth_error (Pool.threads s) i) as [[y|]|]; try discriminate.
    intros E; inversion E; subst; simpl. now rewrite set_nth_length.
Qed.

Lemma steps_threads max_workers acts s s' :
  Pool.steps max_workers acts s = Some s' ->
  (List.length (Pool.threads s) <= max_workers)%nat ->
  (List.length (Pool.threads s') <= max_workers)%nat.
Proof.
  revert s. induction acts as [|a acts IH]; intros s; simpl.
  - intros E; inversion E; subst; auto.
  - destruct (Pool.step max_workers a s) as [s1|] eqn:E1; [|discriminate].
    intros E L. eapply IH; eauto using step_threads.
Qed.

Lemma steps_active max_workers acts s :
  Pool.steps max_workers acts Pool.empty = Some s ->
  (Pool.active s <= max_workers)%nat
  /\ (Pool.active s = max_workers ->
      forall i, Pool.step max_workers (Pool.Take i) s = None).
Proof.
  intros E.
  assert (L : (List.length (Pool.threads s) <= max_workers)%nat)
    by (apply (steps_threads _ _ _ _ E); simpl; lia).
  pose proof (running_le (Pool.threads s)) as R. unfold Pool.active.
  split; [lia|]. intros F i. simpl.
  destruct (nth_error (Pool.threads s) i) as [[y|]|] eqn:N; try reflexivity.
  exfalso. apply (running_full (Pool.threads s) i); [lia | exact N].
Qed.

End PoolFacts.

(** C4. In every state the pool of a fleet run can reach, whatever the
    interleaving of submissions, task starts and task ends, the number of
    workflows being run is at most [max_concurrent_installs]; and when that
    many are running no worker can take a further task from the queue, so the
    submitted workflows that remain wait there until a running one is over. *)
Theorem active_workflows_bounded config (acts : list (Pool.action Server)) s :
  0 < get (max_concurrent_installs config) 3 ->
  Pool.steps (pool_width config) acts Pool.empty = Some s ->
  Z.of_nat (Pool.active s) <= get (max_concurrent_installs config) 3
  /\ (Z.of_nat (Pool.active s) = get (max_concurrent_installs config) 3 ->
      forall i, Pool.step (pool_width config) (Pool.Take i) s = None).
Proof.
  unfold pool_width. intros K E. destruct (steps_active _ _ _ E) as [B W].
  split; [lia|]. intros F. apply W. lia.
Qed.

Lemma active_workflows_bounded_witness :
  let a := Sample.web1 in
  let b := Sample.win1 in
  let c := Sample.server "db1" None in
  let config := Sample.config [a; b; c] (Some 2) in
  let acts := [Pool.Submit a; Pool.Submit b; Pool.Submit c; Pool.Take 0%nat;
               Pool.Take 1%nat] in
  exists s,
    Pool.steps (pool_width config) acts Pool.empty = Some s
    /\ Pool.running (Pool.threads s) = [a; b]
    /\ Pool.work_queue s = [c]
    /\ Z.of_nat (Pool.active s) <= 2
    /\ forall i, Pool.step (pool_width config) (Pool.Take i) s = None.
Proof.
  intros a b c config acts. eexists. split; [reflexivity|].
  split; [reflexivity|]. split; [reflexivity|].
  destruct (active_workflows_bounded config acts _ eq_refl eq_refl) as [B W].
  split; [exact B|]. apply W. reflexivity.
Defined.

(** * Further properties of the steps *)

(** ** The resource check *)

Lemma not_short_fit config ssh_client t :
  ~ resources_short config ssh_client t -> resources_fit config ssh_client t.
Proof.
  unfold resources_short, resources_fit. cbv zeta. intros N.
  destruct (readable ssh_client t uptime_call); [|exfalso; auto].
  split; [reflexivity|].
  destruct (reading ssh_client (t ++ [Exec uptime_call])%list free_call) as [mem|];
    [|exfalso; auto].
  destruct (reading ssh_client ((t ++ [Exec uptime_call]) ++ [Exec free_call])%list df_call)
    as [disk|]; [|exfalso; apply N; right; right; right; left; reflexivity].
  exists mem, disk. split; [reflexivity|]. split; [reflexivity|]. split.
  - destruct (Z_lt_ge_dec mem (min_memory config)); [exfalso; apply N; right; right; left; eauto | lia].
  - destruct (Z_lt_ge_dec disk (min_disk config)); [exfalso; apply N; right; right; right; right; eauto | lia].
Qed.

(** X1. The resource check passes exactly on a fit host: the load is
    readable and both metrics are integers, as [int] reads them from ASCII
    text (a decimal literal of at most 4300 digits), at or above their thresholds
    (512 MB and 2048 MB when the configuration gives none; a value equal to
    the threshold passes). It then has issued its three probes in order. When
    both metrics are read and the memory is below its threshold, the verdict
    names the memory, whatever the disk. *)
Theorem resource_check_verdict config ssh_client t :
  (resources_fit config ssh_client t <->
   fst (check_system_resources config ssh_client t) = Return (true, "资源检查通过"))
  /\ (resources_fit config ssh_client t ->
      snd (check_system_resources config ssh_client t)
      = (t ++ [Exec uptime_call; Exec free_call; Exec df_call])%list)
  /\ (forall mem disk,
        readable ssh_client t uptime_call = true ->
        reading ssh_client (t ++ [Exec uptime_call])%list free_call = Some mem ->
        reading ssh_client (t ++ [Exec uptime_call; Exec free_call])%list df_call
          = Some disk ->
        mem < min_memory config ->
        fst (check_system_resources config ssh_client t)
        = Return (false, "内存不足 (可用: " ++ Py.str_of_int mem ++ "MB, 需要: "
                         ++ Py.str_of_int (min_memory config) ++ "MB)")).
Proof.
  assert (F : resources_fit config ssh_client t ->
              check_system_resources config ssh_client t
              = (Return (true, "资源检查通过"),
                 (t ++ [Exec uptime_call; Exec free_call; Exec df_call])%list)).
  { unfold resources_fit, readable, reading, min_memory, min_disk. cbv zeta.
    intros [U [mem [disk [M [D [Lm Ld]]]]]]. unfold_check.
    destruct (respond ssh_client t uptime_call) as [e|u]; [discriminate|].
    destruct (stdout u) as [ut|e]; [|discriminate].
    destruct (respond ssh_client (t ++ [Exec uptime_call])%list free_call) as [e|m];
      [discriminate|].
    destruct (stdout m) as [mt|e]; [|discriminate]. rewrite M.
    destruct (respond ssh_client ((t ++ [Exec uptime_call]) ++ [Exec free_call])%list df_call)
      as [e|d]; [discriminate|].
    destruct (stdout d) as [dt|e]; [|discriminate]. rewrite D.
    apply Z.ltb_ge in Lm, Ld. rewrite Lm, Ld. rewrite <- !app_assoc. reflexivity. }
  split; [split|split].
  - intros H. now rewrite (F H).
  - intros E. apply not_short_fit. intros S.
    destruct (check_system_resources_short _ _ _ S) as [reason [t' E']].
    rewrite E' in E. discriminate.
  - intros H. now rewrite (F H).
  - unfold readable, reading, min_memory, min_disk. intros mem disk U M D L.
    unfold_check.
    destruct (respond ssh_client t uptime_call) as [e|u]; [discriminate|].
    destruct (stdout u) as [ut|e]; [|discriminate].
    destruct (respond ssh_client (t ++ [Exec uptime_call])%list free_call) as [e|m];
      [discriminate|].
    destruct (stdout m) as [mt|e]; [|discriminate]. rewrite M.
    replace ((t ++ [Exec uptime_call]) ++ [Exec free_call])%list
      with (t ++ [Exec uptime_call; Exec free_call])%list by now rewrite <- app_assoc.
    destruct (respond ssh_client (t ++ [Exec uptime_call; Exec free_call])%list df_call)
      as [e|d]; [discriminate|].
    destruct (stdout d) as [dt|e]; [|discriminate]. rewrite D.
    apply Z.ltb_lt in L. rewrite L. reflexivity.
Qed.

Lemma resource_check_verdict_witness :
  resources_fit (Sample.config [Sample.web1] None) Sample.at_threshold []
  /\ check_system_resources (Sample.config [Sample.web1] None) Sample.at_threshold []
     = (Return (true, "资源检查通过"), [Exec uptime_call; Exec free_call; Exec df_call]).
Proof.
  assert (F : resources_fit (Sample.config [Sample.web1] None) Sample.at_threshold []).
  { split; [reflexivity|]. exists 512, 2048. repeat split; discriminate. }
  split; [exact F|].
  destruct (resource_check_verdict (Sample.config [Sample.web1] None) Sample.at_threshold [])
    as [[V _] [T _]].
  apply injective_projections; [exact (V F) | exact (T F)].
Defined.

(** ** The install step *)

Lemma startswith_append (p s : string) : Py.startswith (p ++ s) p = true.
Proof.
  unfold Py.startswith. induction p as [|a p IH]; simpl.
  - destruct s; reflexivity.
  - destruct (ascii_dec a a); [exact IH | congruence].
Qed.

Lemma install_templates p :
  is_install_cmd ("cd /opt && tar xzf " ++ p) = true
  /\ is_install_cmd ("rpm -ivh " ++ p) = true
  /\ is_install_cmd ("dpkg -i " ++ p) = true.
Proof.
  unfold is_install_cmd.
  rewrite (startswith_append "cd /opt && tar xzf "), (startswith_append "rpm -ivh "),
    (startswith_append "dpkg -i ").
  repeat split; auto using orb_true_r.
Qed.

Lemma install_cmd_class package_path c :
  install_cmd package_path = Some c ->
  is_install_cmd c = true /\ Py.endswith c package_path = true.
Proof.
  destruct (install_templates package_path) as [T [R D]].
  unfold install_cmd.
  destruct (_ || _)%bool;
    [intros [= <-]; split;
       [exact T | exact (endswith_append "cd /opt && tar xzf " package_path)]|].
  destruct (Py.endswith package_path ".rpm");
    [intros [= <-]; split; [exact R | exact (endswith_append "rpm -ivh " package_path)]|].
  destruct (Py.endswith package_path ".deb");
    [intros [= <-]; split; [exact D | exact (endswith_append "dpkg -i " package_path)]|].
  discriminate.
Qed.



(** ** The fetch step *)

Lemma last_segment_no_slash (url : string) : no_slash (Py.last_segment "/" url) = true.
Proof.
  unfold no_slash. induction url as [|c url IH]; [reflexivity|].
  cbn [Py.last_segment].
  destruct (Ascii.eqb c "/") eqn:C; [exact IH|].
  destruct (existsb (Ascii.eqb "/") (list_ascii_of_string url)) eqn:X; [exact IH|].
  cbn [list_ascii_of_string existsb]. rewrite X, Ascii.eqb_sym, C. reflexivity.
Qed.

(** X3. A fetch that reports success returns the path [/tmp/<name>]
    where [<name>] is the text after the last [/] of the URL and has no [/] in
    it. It has read the answer to its OS probe, and then either found the
    artifact in place and stopped after the presence test, or sent the
    download command, with a timeout of 600 seconds, and seen it exit with
    status 0. *)
Theorem fetch_success ssh_client download_url os_type t path :
  let name := Py.last_segment "/" download_url in
  let probes := (t ++ [Exec uname_call; Exec (downloaded_call name)])%list in
  let fetch := download_splunk_package ssh_client download_url os_type t in
  fst fetch = Return (true, path) ->
  path = "/tmp/" ++ name
  /\ no_slash name = true
  /\ readable ssh_client t uname_call = true
  /\ ((says_exists ssh_client (t ++ [Exec uname_call])%list (downloaded_call name) = true
       /\ snd fetch = probes)
      \/ (says_exists ssh_client (t ++ [Exec uname_call])%list (downloaded_call name) = false
          /\ exists o,
               respond ssh_client probes (download_call name download_url) = Reply o
               /\ download_call name download_url
                  = {| cmd := download_cmd name download_url; timeout := Some 600 |}
               /\ exit_status o = 0
               /\ snd fetch
                  = (probes ++ [Exec (download_call name download_url)])%list)).
Proof.
  intros name probes fetch. unfold fetch, probes.
  unfold download_splunk_package, try_except, bind, exec_command, read_stripped,
    readable, says_exists, ret, raise.
  fold name. pose proof (last_segment_no_slash download_url) as NS. fold name in NS.
  destruct (respond ssh_client t uname_call) as [e|u]; [discriminate|].
  destruct (stdout u) as [ut|e]; [|discriminate]. cbv beta iota.
  destruct (respond ssh_client (t ++ [Exec uname_call])%list (downloaded_call name))
    as [e|p]; [discriminate|].
  destruct (stdout p) as [pt|e]; [|discriminate]. cbv beta iota.
  replace ((t ++ [Exec uname_call]) ++ [Exec (downloaded_call name)])%list
    with (t ++ [Exec uname_call; Exec (downloaded_call name)])%list
    by now rewrite <- app_assoc.
  destruct (Py.strip pt =? "exists")%string eqn:P.
  - intros E. inversion E. auto 8.
  - destruct (respond ssh_client _ (download_call name download_url)) as [e|o];
      [discriminate|].
    destruct (exit_status o =? 0) eqn:X; cbn [negb].
    + intros E. inversion E. apply Z.eqb_eq in X.
      repeat split; auto. right. split; [reflexivity|]. exists o. auto.
    + destruct (stderr o); discriminate.
Qed.

Lemma fetch_success_witness :
  fst (download_splunk_package Sample.fresh "https://mirror.example.com/a/b/uf-9.2.deb"
         "linux" [])
    = Return (true, "/tmp/uf-9.2.deb")
  /\ snd (download_splunk_package Sample.fresh "https://mirror.example.com/a/b/uf-9.2.deb"
            "linux" [])
     = [Exec uname_call; Exec (downloaded_call "uf-9.2.deb");
        Exec (download_call "uf-9.2.deb" "https://mirror.example.com/a/b/uf-9.2.deb")].
Proof.
  destruct (fetch_success Sample.fresh "https://mirror.example.com/a/b/uf-9.2.deb" "linux" []
              "/tmp/uf-9.2.deb" eq_refl) as [_ [_ [_ [[P _]|[_ [o [_ [_ [_ T]]]]]]]]].
  - discriminate P.
  - split; [reflexivity | exact T].
Defined.

(** ** Paths through the workflow *)

Lemma guard_passed config ssh_client :
  says_exists ssh_client [] installed_call = false
    \/ get (force_reinstall config) false = true ->
  (says_exists ssh_client [] installed_call
   && negb (get (force_reinstall config) false))%bool = false.
Proof. intros [-> | ->]; [reflexivity | apply andb_false_r]. Qed.

(** Runs the workflow through its two guards, given that the installed
    check lets it pass ([G]) and what the resource check returns ([Er]). *)
Ltac past_guards G Er :=
  unfold workflow, bind; rewrite check_if_installed_eq, (guard_passed _ _ G);
  cbn [app]; rewrite Er; cbn [negb].

(** Then through the lookup of the URL and the fetch. *)
Ltac past_fetch Hsc Hurl Ef :=
  unfold lookup_download_url; rewrite Hsc, Hurl; unfold ret at 1;
  rewrite Ef; cbn [negb].

Lemma guards_trace_class config ssh_client verdict t_r :
  check_system_resources config ssh_client [Exec installed_call] = (Return verdict, t_r) ->
  issued is_fetch_cmd t_r = false /\ issued is_install_cmd t_r = false
  /\ issued is_config_cmd t_r = false /\ issued is_cleanup_cmd t_r = false.
Proof.
  intros E. destruct (check_system_resources_emits _ _ _ _ _ E) as [calls [-> F]].
  rewrite !issued_app.
  rewrite (issued_none is_fetch_cmd metric_call calls),
    (issued_none is_install_cmd metric_call calls),
    (issued_none is_config_cmd metric_call calls),
    (issued_none is_cleanup_cmd metric_call calls); auto;
    intros c Hc; try apply (metric_call_class c Hc).
  unfold metric_call in Hc. simpl in Hc.
  destruct Hc as [<-|[<-|[<-|[]]]]; reflexivity.
Qed.

(** X4. When the download command exits with a nonzero status, the
    fetch step reports the stripped error stream of the command, and the
    host's result is a failure of the download stage that carries it (the
    stage prefix appears twice, once from the step and once from the
    workflow). The download is the last command the host sees: no install or
    configuration command follows. *)
Theorem download_failure_fails_host config w server ssh_client
    msg_r t_r sc url o err :
  let os := get (os_type server) "linux" in
  let name := Py.last_segment "/" url in
  let probes := (t_r ++ [Exec uname_call; Exec (downloaded_call name)])%list in
  session_of w server = inr ssh_client ->
  says_exists ssh_client [] installed_call = false
    \/ get (force_reinstall config) false = true ->
  check_system_resources config ssh_client [Exec installed_call]
    = (Return (true, msg_r), t_r) ->
  splunk_config config = Some sc -> download_url sc = Some url ->
  readable ssh_client t_r uname_call = true ->
  readable ssh_client (t_r ++ [Exec uname_call])%list (downloaded_call name) = true ->
  says_exists ssh_client (t_r ++ [Exec uname_call])%list (downloaded_call name) = false ->
  respond ssh_client probes (download_call name url) = Reply o ->
  exit_status o <> 0 ->
  stderr o = Data err ->
  download_splunk_package ssh_client url os t_r
    = (Return (false, "下载失败: " ++ Py.strip err),
       (probes ++ [Exec (download_call name url)])%list)
  /\ fst (install_on_server config w server)
     = Return {| res_host := host server; success := false;
                 message := "下载失败: 下载失败: " ++ Py.strip err;
                 timestamp := now_iso w (host server) |}
  /\ snd (install_on_server config w server)
     = (probes ++ [Exec (download_call name url); Close])%list
  /\ issued is_install_cmd (snd (install_on_server config w server)) = false
  /\ issued is_config_cmd (snd (install_on_server config w server)) = false.
Proof.
  intros os name probes S G Er Hsc Hurl U Pr Pe R X Herr.
  assert (Ef : download_splunk_package ssh_client url os t_r
               = (Return (false, "下载失败: " ++ Py.strip err),
                  (probes ++ [Exec (download_call name url)])%list)).
  { unfold probes in *. revert U Pr Pe R.
    unfold download_splunk_package, try_except, bind, exec_command, read_stripped,
      readable, says_exists, ret, raise.
    fold name.
    destruct (respond ssh_client t_r uname_call) as [e|u]; [discriminate|].
    destruct (stdout u) as [ut|e]; [|discriminate]. cbv beta iota.
    destruct (respond ssh_client (t_r ++ [Exec uname_call])%list (downloaded_call name))
      as [e|p]; [discriminate|].
    destruct (stdout p) as [pt|e]; [|discriminate]. cbv beta iota.
    replace ((t_r ++ [Exec uname_call]) ++ [Exec (downloaded_call name)])%list
      with (t_r ++ [Exec uname_call; Exec (downloaded_call name)])%list
      by now rewrite <- app_assoc.
    intros _ _ -> ->. apply Z.eqb_neq in X. rewrite X. cbn [negb]. rewrite Herr.
    reflexivity. }
  split; [exact Ef|].
  assert (W : workflow config server (fresh_result w server) ssh_client []
              = (Return (set_message (fresh_result w server)
                           ("下载失败: " ++ "下载失败: " ++ Py.strip err)),
                 (probes ++ [Exec (download_call name url)])%list)).
  { past_guards G Er. fold os. past_fetch Hsc Hurl Ef. reflexivity. }
  rewrite (install_on_server_open _ _ _ _ S). unfold try_finally, try_except.
  rewrite W. cbn [fst snd]. unfold close, probes.
  destruct (guards_trace_class _ _ _ _ Er) as [_ [I [C _]]].
  split; [reflexivity|]. split; [now rewrite <- !app_assoc|].
  rewrite !issued_app, I, C. split; reflexivity.
Qed.

Lemma download_failure_fails_host_witness :
  let w := Sample.world [("web1", Sample.unreachable_mirror)] FileNotFound in
  let run := install_on_server (Sample.config [Sample.web1] None) w Sample.web1 in
  fst run = Return {| res_host := "web1"; success := false;
                      message := "下载失败: 下载失败: wget: host unreachable";
                      timestamp := now_iso w "web1" |}
  /\ issued is_install_cmd (snd run) = false.
Proof.
  intros w run.
  edestruct (download_failure_fails_host (Sample.config [Sample.web1] None) w Sample.web1
               Sample.unreachable_mirror) as [_ [H1 [_ [H2 _]]]].
  - reflexivity.
  - left. reflexivity.
  - reflexivity.
  - reflexivity.
  - reflexivity.
  - reflexivity.
  - reflexivity.
  - reflexivity.
  - reflexivity.
  - cbn. discriminate.
  - reflexivity.
  - split; [exact H1 | exact H2].
Defined.

(** ** The configuration step *)

(** Splits on every answer of the host that the goal depends on. *)
Ltac split_answers ssh_client :=
  repeat (match goal with
          | |- context [respond ssh_client ?t ?c] =>
              let R := fresh "R" in destruct (respond ssh_client t c) eqn:R
          end; cbv beta iota; cbn [sent_until_error answered]).

(** X5. The configuration step sends the commands of its sequence in
    order -- license, stop, the deployment server and the forward server when
    their addresses are set, boot start, final start -- and stops at the first
    one that raises; it never raises itself. It reports success exactly when
    every command before the final start was answered, with any exit status,
    and the final start exited with status 0. *)
Theorem configure_verdict config ssh_client t :
  (exists verdict,
     configure_splunk config ssh_client t
     = (Return verdict,
        (t ++ map Exec (sent_until_error ssh_client t (config_sequence config)))%list))
  /\ (forall msg,
        fst (configure_splunk config ssh_client t) = Return (true, msg) <->
        msg = "配置成功"
        /\ answered ssh_client t (config_prelude config)
        /\ exists o,
             respond ssh_client (t ++ map Exec (config_prelude config))%list start_call
               = Reply o
             /\ exit_status o = 0).
Proof.
  split.
  - unfold configure_splunk, config_sequence, config_prelude, when_set, try_except, bind,
      exec_command, read_stripped, ret, raise. cbv zeta.
    destruct (truthy (Some _)), (truthy (Some _)); cbn [app sent_until_error].
    all: split_answers ssh_client.
    all: try match goal with |- context [negb ?b] => destruct b; cbn [negb] end.
    all: try match goal with |- context [stderr ?o] => destruct (stderr o) end.
    all: eexists; cbn [map]; rewrite <- ?app_assoc; cbn [app]; reflexivity.
  - intros msg. split.
    + unfold configure_splunk, config_prelude, when_set, try_except, bind,
        exec_command, read_stripped, ret, raise. cbv zeta.
      destruct (truthy (Some _)), (truthy (Some _)); cbn [app answered map].
      all: split_answers ssh_client; try discriminate.
      all: rewrite <- ?app_assoc; cbn [app].
      all: match goal with
           | R : respond _ _ start_call = Reply ?o |- _ =>
               destruct (exit_status o =? 0) eqn:X; cbn [negb];
               [|destruct (stderr o); discriminate]
           end.
      all: intros E; inversion E; apply Z.eqb_eq in X.
      all: repeat match goal with
             | H : respond _ _ _ = _ |- _ =>
                 rewrite <- ?app_assoc in H; cbn [app] in H; revert H
             end; intros.
      all: repeat split; eauto; try congruence.
      all: match goal with
           | X : exit_status ?o = 0 |- _ => exists o; split; [congruence | exact X]
           end.
    + intros [-> [A [o [R X]]]]. rewrite (configure_splunk_answered _ _ _ A).
      unfold final_start, try_except, bind, exec_command. rewrite R.
      apply Z.eqb_eq in X. rewrite X. reflexivity.
Qed.

Lemma configure_verdict_witness :
  let config := Sample.config [Sample.web1] None in
  snd (configure_splunk config Sample.license_raises []) = [Exec accept_license_call]
  /\ fst (configure_splunk config Sample.license_raises []) = Return (false, "timed out").
Proof.
  intros config.
  destruct (configure_verdict config Sample.license_raises []) as [[verdict E] _].
  split; [rewrite E|]; reflexivity.
Defined.

(** X6. Cleanup never decides the outcome. When the workflow gets
    through the install stage, every command of the configuration sequence is
    answered and the final start exits with status 0, the host's result is the
    success "installed and configured", whatever the host answers to the
    removal of the artifact, even when that command raises. The session has
    then seen the whole configuration sequence, the removal of the artifact
    unless [cleanup_after_install] is false, and the close. *)
Theorem cleanup_never_decides config w server ssh_client
    msg_r t_r sc url package_path t_f msg_i t_i o :
  let os := get (os_type server) "linux" in
  session_of w server = inr ssh_client ->
  says_exists ssh_client [] installed_call = false
    \/ get (force_reinstall config) false = true ->
  check_system_resources config ssh_client [Exec installed_call]
    = (Return (true, msg_r), t_r) ->
  splunk_config config = Some sc -> download_url sc = Some url ->
  download_splunk_package ssh_client url os t_r = (Return (true, package_path), t_f) ->
  install_splunk ssh_client package_path os t_f = (Return (true, msg_i), t_i) ->
  answered ssh_client t_i (config_prelude config) ->
  respond ssh_client (t_i ++ map Exec (config_prelude config))%list start_call = Reply o ->
  exit_status o = 0 ->
  fst (install_on_server config w server)
    = Return {| res_host := host server; success := true;
                message := "安装并配置成功";
                timestamp := now_iso w (host server) |}
  /\ snd (install_on_server config w server)
     = (t_i ++ map Exec (config_sequence config ++ cleanup_calls config package_path)
        ++ [Close])%list.
Proof.
  intros os S G Er Hsc Hurl Ef Ei A R X.
  assert (C : configure_splunk config ssh_client t_i
              = (Return (true, "配置成功"),
                 (t_i ++ map Exec (config_sequence config))%list)).
  { rewrite (configure_splunk_answered _ _ _ A).
    unfold final_start, try_except, bind, exec_command. rewrite R.
    apply Z.eqb_eq in X. rewrite X. cbn [negb]. unfold ret, config_sequence.
    now rewrite map_app, app_assoc. }
  assert (K : cleanup config ssh_client package_path
                (t_i ++ map Exec (config_sequence config))%list
              = (Return tt,
                 (t_i ++ map Exec (config_sequence config ++ cleanup_calls config package_path))%list)).
  { unfold cleanup, cleanup_calls, try_except, bind, exec_command, ret.
    destruct (get (cleanup_after_install config) true).
    - destruct (respond ssh_client _ (cleanup_call package_path));
        now rewrite map_app, app_assoc.
    - now rewrite app_nil_r. }
  assert (W : workflow config server (fresh_result w server) ssh_client []
              = (Return (set_outcome (fresh_result w server) true "安装并配置成功"),
                 (t_i ++ map Exec (config_sequence config
                                   ++ cleanup_calls config package_path))%list)).
  { past_guards G Er. fold os. past_fetch Hsc Hurl Ef. rewrite Ei. cbn [negb].
    rewrite C. cbn [negb]. rewrite K. reflexivity. }
  rewrite (install_on_server_open _ _ _ _ S). unfold try_finally, try_except.
  rewrite W. cbn [fst snd]. unfold close. split; [reflexivity|].
  now rewrite <- app_assoc.
Qed.

Lemma cleanup_never_decides_witness :
  let w := Sample.world [("web1", Sample.cleanup_raises)] FileNotFound in
  let run := install_on_server (Sample.config [Sample.web1] None) w Sample.web1 in
  respond Sample.cleanup_raises [] (cleanup_call "/tmp/splunkforwarder-9.1.2.tgz")
    = ExecError "SSH session not active"
  /\ fst run = Return {| res_host := "web1"; success := true;
                         message := "安装并配置成功";
                         timestamp := now_iso w "web1" |}
  /\ issued is_cleanup_cmd (snd run) = true.
Proof.
  intros w run. split; [reflexivity|].
  edestruct (cleanup_never_decides (Sample.config [Sample.web1] None) w Sample.web1
               Sample.cleanup_raises) as [H1 H2].
  - reflexivity.
  - left. reflexivity.
  - reflexivity.
  - reflexivity.
  - reflexivity.
  - reflexivity.
  - reflexivity.
  - cbn. repeat split; eexists; reflexivity.
  - reflexivity.
  - reflexivity.
  - split; [exact H1 | reflexivity].
Defined.

(** X7. A host that is short of resources is left alone, installed or
    not, forced or not: no fetch, install, configuration or cleanup command is
    sent to it, and its result is a success only as the skip of an installed
    host. *)
Theorem unfit_host_untouched config w server ssh_client :
  session_of w server = inr ssh_client ->
  resources_short config ssh_client [Exec installed_call] ->
  let run := install_on_server config w server in
  issued is_fetch_cmd (snd run) = false
  /\ issued is_install_cmd (snd run) = false
  /\ issued is_config_cmd (snd run) = false
  /\ issued is_cleanup_cmd (snd run) = false
  /\ exists result,
       fst run = Return result
       /\ (success result = true -> message result = skipped_message).
Proof.
  intros S R run. unfold run. rewrite (install_on_server_open _ _ _ _ S).
  unfold try_finally, try_except.
  destruct (says_exists ssh_client [] installed_call
            && negb (get (force_reinstall config) false))%bool eqn:B.
  - assert (W : workflow config server (fresh_result w server) ssh_client []
                = (Return (set_outcome (fresh_result w server) true skipped_message),
                   [Exec installed_call])).
    { unfold workflow, bind. rewrite check_if_installed_eq, B. reflexivity. }
    rewrite W. cbn [fst snd]. repeat split. eexists. split; reflexivity.
  - destruct (check_system_resources_short _ _ _ R) as [reason [t2 E]].
    assert (W : workflow config server (fresh_result w server) ssh_client []
                = (Return (set_message (fresh_result w server)
                             ("资源检查失败: " ++ reason)), t2)).
    { unfold workflow, bind. rewrite check_if_installed_eq, B. cbn [app].
      rewrite E. reflexivity. }
    rewrite W. cbn [fst snd]. unfold close.
    destruct (guards_trace_class _ _ _ _ E) as [F [I [C K]]].
    rewrite !issued_app, F, I, C, K. repeat split.
    eexists. split; [reflexivity|]. discriminate.
Qed.

Lemma unfit_host_untouched_witness :
  let w := Sample.world [("web1", Sample.garbled)] FileNotFound in
  let run := install_on_server (Sample.forced [Sample.web1]) w Sample.web1 in
  resources_short (Sample.forced [Sample.web1]) Sample.garbled [Exec installed_call]
  /\ issued is_fetch_cmd (snd run) = false
  /\ issued is_install_cmd (snd run) = false.
Proof.
  intros w run.
  assert (R : resources_short (Sample.forced [Sample.web1]) Sample.garbled
                [Exec installed_call]) by (right; left; reflexivity).
  split; [exact R|].
  destruct (unfit_host_untouched (Sample.forced [Sample.web1]) w Sample.web1
              Sample.garbled eq_refl R) as [F [I _]].
  split; [exact F | exact I].
Defined.

(** Unless the host is skipped as installed, the workflow goes on to the
    resource check. *)
Lemma workflow_reaches_resource_check config w server ssh_client :
  session_of w server = inr ssh_client ->
  (says_exists ssh_client [] installed_call
   && negb (get (force_reinstall config) false))%bool = false ->
  exists rest,
    snd (install_on_server config w server)
    = Exec installed_call :: Exec uptime_call :: rest.
Proof.
  intros S B. rewrite (install_on_server_open _ _ _ _ S).
  unfold try_finally, try_except.
  destruct (workflow config server (fresh_result w server) ssh_client [])
    as [o t] eqn:E.
  assert (P : exists rest, t = Exec installed_call :: Exec uptime_call :: rest).
  { unfold workflow in E. apply bind_inv in E.
    rewrite check_if_installed_eq in E.
    destruct E as [[a [t1 [E1 E]]]|[e [E1 _]]]; [|discriminate E1].
    inversion E1; subst a t1; clear E1. rewrite B in E. cbn [app] in E.
    apply bind_inv in E. destruct E as [[a [t1 [E1 E]]]|[e [E1 _]]];
      destruct (check_system_resources_starts _ _ _ _ _ E1) as [rest ->].
    - assert (A : appends any_call ([Exec installed_call] ++ Exec uptime_call :: rest)%list t).
      { revert E. match goal with |- ?k _ = _ -> _ =>
          enough (EM : emits any_call k) by (intros E; apply (EM _ _ _ E)) end.
        emits_any. }
      destruct A as [calls [-> _]]. simpl. eauto.
    - simpl. eauto. }
  destruct P as [rest ->]. destruct o; unfold close; simpl; eauto.
Qed.

(** X8. The installed check fails open. When its probe raises or its
    output cannot be read, [check_if_installed] answers that the forwarder is
    not installed, and the workflow goes on to the resource check, with or
    without [force_reinstall]. *)
Theorem installed_probe_fails_open config w server ssh_client :
  session_of w server = inr ssh_client ->
  readable ssh_client [] installed_call = false ->
  check_if_installed ssh_client [] = (Return false, [Exec installed_call])
  /\ exists rest,
       snd (install_on_server config w server)
       = Exec installed_call :: Exec uptime_call :: rest.
Proof.
  intros S U.
  assert (N : says_exists ssh_client [] installed_call = false).
  { revert U. unfold readable, says_exists.
    destruct (respond ssh_client [] installed_call) as [e|r]; [reflexivity|].
    destruct (stdout r); [discriminate | reflexivity]. }
  split.
  - now rewrite check_if_installed_eq, N.
  - apply (workflow_reaches_resource_check _ _ _ _ S). now rewrite N.
Qed.

Lemma installed_probe_fails_open_witness :
  let w := Sample.world [("web1", Sample.probe_raises)] FileNotFound in
  let run := install_on_server (Sample.config [Sample.web1] None) w Sample.web1 in
  respond Sample.probe_raises [] installed_call = ExecError "Channel closed."
  /\ (exists rest, snd run = Exec installed_call :: Exec uptime_call :: rest)
  /\ fst run = Return {| res_host := "web1"; success := true;
                         message := "安装并配置成功";
                         timestamp := now_iso w "web1" |}.
Proof.
  intros w run. split; [reflexivity|].
  destruct (installed_probe_fails_open (Sample.config [Sample.web1] None) w Sample.web1
              Sample.probe_raises eq_refl eq_refl) as [_ H].
  split; [exact H | reflexivity].
Defined.

(** ** The result of a host *)

Lemma failure_message prefix rest :
  In prefix failure_prefixes ->
  existsb (Py.startswith (prefix ++ rest)) failure_prefixes = true.
Proof.
  intros H. apply existsb_exists. exists prefix. split; [exact H|].
  apply startswith_append.
Qed.

(** What the steps after the session is opened may return. *)
Lemma workflow_result config server result ssh_client t x t' :
  workflow config server result ssh_client t = (Return x, t') ->
  x = set_outcome result true skipped_message
  \/ x = set_outcome result true installed_message
  \/ exists prefix rest, In prefix failure_prefixes
                         /\ x = set_message result (prefix ++ rest).
Proof.
  unfold workflow, bind, ret. intros E.
  repeat match type of E with
         | context [match ?m ?s with _ => _ end] =>
             match type of m with
             | M _ => destruct (m s) as [[?|?] ?]
             end
         | context [let (_, _) := ?p in _] => destruct p
         | context [if ?b then _ else _] => destruct b
         end;
    try discriminate E;
    match type of E with
    | (Return ?y, _) = _ => assert (X : x = y) by congruence; rewrite X; clear E X
    end;
    first [ left; reflexivity
          | right; left; reflexivity
          | right; right; eexists _, _; split; [|reflexivity]; simpl; tauto ].
Qed.

(** X9. [install_on_server] never raises: it returns one result, which
    names the host it was given and carries the clock reading taken at the
    start. A result marked as a success carries one of two messages, "already
    installed, skipped" or "installed and configured"; a result marked as a
    failure carries a message that starts with the prefix of a stage
    (resource check, download, install, configuration) or with the prefix of
    an exception. *)
Theorem result_well_formed config w server :
  exists result,
    fst (install_on_server config w server) = Return result
    /\ res_host result = host server
    /\ timestamp result = now_iso w (host server)
    /\ (success result = true ->
        message result = skipped_message \/ message result = installed_message)
    /\ (success result = false ->
        existsb (Py.startswith (message result)) failure_prefixes = true).
Proof.
  destruct (session_of w server) as [e|ssh_client] eqn:S.
  - rewrite (install_on_server_refused _ _ _ _ S). eexists. split; [reflexivity|].
    repeat split; [discriminate|]. intros _. apply failure_message. simpl. tauto.
  - rewrite (install_on_server_open _ _ _ _ S). unfold try_finally, try_except.
    destruct (workflow config server (fresh_result w server) ssh_client [])
      as [[x|e] t] eqn:E; cbn [fst].
    + exists x. split; [reflexivity|].
      destruct (workflow_result _ _ _ _ _ _ _ E) as [-> | [-> | [p [m [P ->]]]]];
        repeat split; auto; try discriminate.
      intros _. apply failure_message, P.
    + eexists. split; [reflexivity|].
      repeat split; [discriminate|]. intros _. apply failure_message. simpl. tauto.
Qed.

(** X10. A configuration without a download URL is found out late.
    On a host that passes both guards, the missing key makes the workflow end
    with the exception result, whose message quotes the missing key
    ([splunk_config] when the whole section is absent, [download_url]
    otherwise); the host has been probed by the guards, no fetch command is
    sent, and the session is closed. *)
Theorem missing_download_url config w server ssh_client msg_r t_r :
  session_of w server = inr ssh_client ->
  says_exists ssh_client [] installed_call = false
    \/ get (force_reinstall config) false = true ->
  check_system_resources config ssh_client [Exec installed_call]
    = (Return (true, msg_r), t_r) ->
  download_url (get (splunk_config config) no_splunk_config) = None ->
  let key := match splunk_config config with
             | None => "splunk_config"
             | Some _ => "download_url"
             end in
  install_on_server config w server
  = (Return {| res_host := host server; success := false;
               message := "异常: '" ++ key ++ "'";
               timestamp := now_iso w (host server) |},
     (t_r ++ [Close])%list)
  /\ issued is_fetch_cmd (t_r ++ [Close])%list = false.
Proof.
  intros S G Er U key.
  assert (W : workflow config server (fresh_result w server) ssh_client []
              = (Raise (Py.key_error key), t_r)).
  { past_guards G Er. unfold lookup_download_url, key.
    destruct (splunk_config config) as [sc|]; [|reflexivity].
    cbn [get] in U. rewrite U. reflexivity. }
  rewrite (install_on_server_open _ _ _ _ S). unfold try_finally, try_except.
  rewrite W. split; [reflexivity|].
  destruct (guards_trace_class _ _ _ _ Er) as [F _].
  rewrite issued_app, F. reflexivity.
Qed.

Lemma missing_download_url_witness :
  let w := Sample.world [("web1", Sample.fresh)] FileNotFound in
  install_on_server (Sample.incomplete [Sample.web1]) w Sample.web1
  = (Return {| res_host := "web1"; success := false;
               message := "异常: 'splunk_config'";
               timestamp := now_iso w "web1" |},
     [Exec installed_call; Exec uptime_call; Exec free_call; Exec df_call; Close]).
Proof.
  intros w.
  edestruct (missing_download_url (Sample.incomplete [Sample.web1]) w Sample.web1
               Sample.fresh) as [H _].
  - reflexivity.
  - left. reflexivity.
  - reflexivity.
  - reflexivity.
  - exact H.
Defined.

(** * Further properties of the fleet run *)

Lemma fold_logger_log {A} (line : A -> string) (l : list A) st :
  log (fold_left (fun st a => logger INFO (line a) st) l st)
  = (log st ++ map (fun a => (INFO, line a)) l)%list.
Proof.
  revert st. induction l as [|a l IH]; intros st; simpl.
  - now rewrite app_nil_r.
  - rewrite IH. simpl. now rewrite <- app_assoc.
Qed.

Lemma fold_written {A} (f : Proc -> A -> Proc) (l : list A) st :
  (forall s a, written (f s a) = written s) ->
  written (fold_left f l st) = written st.
Proof.
  intros H. revert st. induction l as [|a l IH]; intros st; simpl;
    [reflexivity | now rewrite IH, H].
Qed.

(** X11. A dry run over a non-empty host list only lists the hosts:
    after the three lines about the run and the line that announces the mode,
    it logs one line per server, in configuration order, and returns. Nothing
    is dispatched, no result is recorded and no result file is written,
    whatever the concurrency limit. *)
Theorem dry_run_lists_hosts config w picks st :
  get (servers config) [] <> [] ->
  exists st' header,
    batch_install config w picks true st = (Return tt, st')
    /\ log st' = (log st ++ header ++ dry_run_lines (get (servers config) []))%list
    /\ List.length header = 4%nat
    /\ last header (INFO, EmptyString) = (INFO, "*** DRY RUN 模式 - 仅测试连接 ***")
    /\ results st' = results st
    /\ submitted st' = submitted st
    /\ written st' = written st.
Proof.
  intros N. unfold batch_install.
  destruct (get (servers config) []) as [|s0 rest] eqn:E; [congruence|].
  eexists.
  exists [(INFO, "准备在 " ++ str_of_len (s0 :: rest) ++ " 台服务器上安装Splunk UF");
          (INFO, "最大并发数: " ++ Py.str_of_int (get (max_concurrent_installs config) 3));
          (INFO, "批次间延迟: "
                 ++ Py.str_of_int (get (delay_between_batches_seconds config) 5) ++ "秒");
          (INFO, "*** DRY RUN 模式 - 仅测试连接 ***")].
  split; [reflexivity|].
  rewrite fold_logger_log, fold_results, fold_submitted, fold_written by reflexivity.
  cbn [log results submitted written logger]. rewrite <- !app_assoc.
  split; [reflexivity|]. split; [reflexivity|]. split; [reflexivity|].
  split; [reflexivity|]. split; reflexivity.
Qed.

Lemma dry_run_lists_hosts_witness :
  let config := Sample.config [Sample.web1; Sample.win1] (Some 0) in
  let w := Sample.world [] FileNotFound in
  exists st',
    batch_install config w [] true start_state = (Return tt, st')
    /\ skipn 4 (log st') = [(INFO, "将要处理: web1"); (INFO, "将要处理: win1")]
    /\ results st' = [] /\ submitted st' = [] /\ written st' = [].
Proof.
  intros config w.
  destruct (dry_run_lists_hosts config w [] start_state) as [st' [header [B _]]].
  - discriminate.
  - exists st'. split; [exact B|].
    assert (E : st' = snd (batch_install config w [] true start_state))
      by (rewrite B; reflexivity).
    rewrite E. repeat split.
Defined.

(** ** The summary *)

Lemma filter_success_lt (results : list HostResult) r :
  In r results -> success r = false ->
  (List.length (filter success results) < List.length results)%nat.
Proof.
  induction results as [|x l IH]; intros I F; [destruct I|].
  simpl. pose proof (filter_length_le success l) as L.
  destruct I as [->|I].
  - rewrite F. lia.
  - specialize (IH I F). destruct (success x); simpl; lia.
Qed.

Lemma fold_failure_lines (results : list HostResult) st :
  log (fold_left
         (fun st result =>
            if negb (success result)
            then logger INFO ("  - " ++ res_host result ++ ": " ++ message result) st
            else st) results st)
  = (log st ++ map failure_line (filter (fun r => negb (success r)) results))%list.
Proof.
  revert st. induction results as [|x l IH]; intros st; simpl.
  - now rewrite app_nil_r.
  - rewrite IH. destruct (negb (success x)); simpl; [|reflexivity].
    now rewrite <- app_assoc.
Qed.

Lemma no_failure_no_line (rs : list HostResult) :
  (0 <? Z.of_nat (List.length rs) - Z.of_nat (List.length (filter success rs))) = false ->
  filter (fun r => negb (success r)) rs = [].
Proof.
  intros F. apply Z.ltb_ge in F.
  destruct (filter (fun r => negb (success r)) rs) as [|x l] eqn:X; [reflexivity|].
  assert (I : In x (filter (fun r => negb (success r)) rs)) by (rewrite X; now left).
  apply filter_In in I. destruct I as [I S].
  apply negb_true_iff in S. pose proof (filter_success_lt _ _ I S). lia.
Qed.

Lemma print_summary_log w st :
  log (print_summary w st)
  = (log st ++ summary_head (results st)
     ++ map failure_line (filter (fun r => negb (success r)) (results st))
     ++ summary_tail w)%list.
Proof.
  unfold print_summary, summary_head, summary_tail.
  cbn [log results logger write_file]. cbv zeta.
  destruct (0 <? Z.of_nat (List.length (results st))
                 - Z.of_nat (List.length (filter success (results st)))) eqn:F.
  - rewrite fold_failure_lines. cbn [log results logger].
    rewrite <- !app_assoc. reflexivity.
  - rewrite (no_failure_no_line _ F). cbn [log results logger map].
    rewrite <- !app_assoc. reflexivity.
Qed.

(** X12. The summary lists every failed host and saves every result.
    [print_summary] leaves the results as they are, writes them once to the
    result file named after the run's stamp, and logs, between its head (six
    lines, and the heading of the list when a host failed) and its two closing
    lines, one line with the host and the message of each result that is not a
    success, in the order of the results. *)
Theorem summary_reports_failures w st :
  let st' := print_summary w st in
  results st' = results st
  /\ written st' = (written st ++ [(result_file w, results st)])%list
  /\ log st'
     = (log st ++ summary_head (results st)
        ++ map failure_line (filter (fun r => negb (success r)) (results st))
        ++ summary_tail w)%list
  /\ (forallb success (results st) = true ->
      List.length (log st') = (List.length (log st) + 8)%nat)
  /\ (forall r, In r (results st) -> success r = false -> In (failure_line r) (log st')).
Proof.
  intros st'. unfold st'.
  split; [apply print_summary_results|]. split; [|split; [apply print_summary_log|split]].
  - unfold print_summary. cbn [written results logger write_file].
    match goal with |- context [if ?b then _ else _] => destruct b end;
      [|reflexivity].
    rewrite fold_written, fold_results;
      try (intros s a; destruct (negb (success a)); reflexivity).
    reflexivity.
  - intros A. rewrite print_summary_log. unfold summary_head. cbv zeta.
    assert (E : filter success (results st) = results st)
      by (apply forallb_filter_id; exact A).
    rewrite E, Z.sub_diag.
    assert (N : filter (fun r => negb (success r)) (results st) = []).
    { apply no_failure_no_line. rewrite E, Z.sub_diag. reflexivity. }
    rewrite N. rewrite !length_app. simpl. lia.
  - intros r I F. rewrite print_summary_log.
    rewrite !in_app_iff. right. right. left.
    apply in_map, filter_In. split; [exact I | now rewrite F].
Qed.

Lemma summary_reports_failures_witness :
  let failed := {| res_host := "db1"; success := false;
                   message := "异常: [Errno 111] Connection refused";
                   timestamp := "2024-05-01T10:00:00" |} in
  let st := append_result failed start_state in
  In (INFO, "  - db1: 异常: [Errno 111] Connection refused")
     (log (print_summary (Sample.world [] FileNotFound) st)).
Proof.
  intros failed st.
  destruct (summary_reports_failures (Sample.world [] FileNotFound) st)
    as [_ [_ [_ [_ H]]]].
  apply (H failed); [now left | reflexivity].
Defined.

Lemma print_summary_written w st :
  written (print_summary w st) = (written st ++ [(result_file w, results st)])%list.
Proof.
  unfold print_summary. cbn [written results logger write_file].
  match goal with |- context [if ?b then _ else _] => destruct b end;
    [|reflexivity].
  rewrite fold_written, fold_results;
    try (intros s a; destruct (negb (success a)); reflexivity).
  reflexivity.
Qed.

Lemma collect_written w delay futs st :
  written (fold_left (collect w delay) futs st) = written st.
Proof.
  apply fold_written. intros s [server [r|e]]; unfold collect;
    [destruct (0 <? delay); [destruct (sleep w delay)|]|]; reflexivity.
Qed.

(** X13. The result file is written by completed runs only, and once.
    When the configuration loads, has hosts, the run is not a dry run and the
    concurrency limit is positive, the process writes one file, named after
    the run's stamp, that holds exactly the results of the run. In every other
    case -- the configuration does not load, there is no host, the run is a
    dry run, or the pool cannot be created -- no result file is written. *)
Theorem result_file_holds_results w config_arg dry_run picks :
  let run := main w config_arg dry_run picks in
  (forall config,
     open_config w config_arg = Parsed config ->
     get (servers config) [] <> [] -> dry_run = false ->
     0 < get (max_concurrent_installs config) 3 ->
     written (snd run) = [(result_file w, results (snd run))])
  /\ ((forall config,
         open_config w config_arg = Parsed config ->
         get (servers config) [] = [] \/ dry_run = true
         \/ get (max_concurrent_installs config) 3 <= 0) ->
      written (snd run) = []).
Proof.
  intros run. unfold run. split.
  - intros config H N -> K. rewrite (main_parsed _ _ _ _ _ H).
    unfold batch_install.
    destruct (get (servers config) []) as [|s0 rest]; [congruence|].
    destruct (get (max_concurrent_installs config) 3 <=? 0) eqn:L;
      [apply Z.leb_le in L; lia|].
    cbn [snd written results logger].
    rewrite print_summary_written, print_summary_results, collect_written.
    rewrite fold_written by reflexivity. reflexivity.
  - intros H. unfold main, load_config.
    destruct (open_config w config_arg) as [| e | e | config] eqn:O; try reflexivity.
    specialize (H config eq_refl). unfold batch_install, banner.
    destruct (get (servers config) []) as [|s0 rest]; [reflexivity|].
    destruct dry_run.
    + cbn [snd written logger]. rewrite fold_written by reflexivity. reflexivity.
    + destruct H as [H|[H|H]]; try discriminate.
      apply Z.leb_le in H. rewrite H. reflexivity.
Qed.

Lemma result_file_holds_results_witness :
  let hosts := [Sample.web1; Sample.win1] in
  let config := Sample.config hosts (Some 2) in
  let w := Sample.world [("web1", Sample.fresh)] (Parsed config) in
  let run := main w "config.json" false [] in
  written (snd run) = [("install_results_20240501_100000.json", results (snd run))]
  /\ map success (results (snd run)) = [true; false].
Proof.
  intros hosts config w run.
  destruct (result_file_holds_results w "config.json" false []) as [H _].
  split; [|reflexivity].
  apply (H config); [reflexivity | discriminate | reflexivity | reflexivity].
Defined.

(** ** The worker pool, further *)

Section PoolConservation.

Context {task : Type}.
Implicit Types (s : Pool.state task) (ths : list (option task)).

Lemma running_take ths i x :
  nth_error ths i = Some None ->
  Permutation (Pool.running (Pool.set_nth i (Some x) ths)) (x :: Pool.running ths).
Proof.
  revert i. induction ths as [|[y|] ths IH]; intros [|i] E; simpl in *;
    try discriminate; try reflexivity.
  - rewrite (IH i E). apply perm_swap.
  - apply (IH i E).
Qed.

Lemma running_finish ths i x :
  nth_error ths i = Some (Some x) ->
  Permutation (x :: Pool.running (Pool.set_nth i None ths)) (Pool.running ths).
Proof.
  revert i. induction ths as [|[y|] ths IH]; intros [|i] E; simpl in *;
    try discriminate.
  - inversion E. reflexivity.
  - rewrite perm_swap. apply perm_skip, (IH i E).
  - apply (IH i E).
Qed.

Lemma running_spawn ths : Pool.running (ths ++ [None])%list = Pool.running ths.
Proof. induction ths as [|[y|] l IH]; simpl; congruence. Qed.

Lemma step_held max_workers a s s' :
  Pool.step max_workers a s = Some s' ->
  Permutation (held s') (held s ++ submissions [a]).
Proof.
  unfold held. destruct a as [x|i|i]; simpl.
  - destruct (Pool.idle_semaphore s);
      [destruct (List.length (Pool.threads s) <? max_workers)%nat|];
      intros E; inversion E; subst; simpl.
    + rewrite running_spawn, <- !app_assoc. apply Permutation_app_head.
      cbn [app]. rewrite app_assoc. apply Permutation_cons_append.
    + rewrite <- !app_assoc. apply Permutation_app_head.
      cbn [app]. rewrite app_assoc. apply Permutation_cons_append.
    + rewrite <- !app_assoc. apply Permutation_app_head.
      cbn [app]. rewrite app_assoc. apply Permutation_cons_append.
  - destruct (nth_error (Pool.threads s) i) as [[y|]|] eqn:N; try discriminate.
    destruct (Pool.work_queue s) as [|x q]; try discriminate.
    intros E; inversion E; subst; simpl. rewrite app_nil_r.
    rewrite (running_take _ _ x N). simpl. symmetry. apply Permutation_middle.
  - destruct (nth_error (Pool.threads s) i) as [[x|]|] eqn:N; try discriminate.
    intros E; inversion E; subst; simpl. rewrite app_nil_r.
    apply Permutation_app_head.
    rewrite <- (running_finish _ _ _ N). simpl.
    rewrite app_assoc. rewrite <- Permutation_middle.
    apply perm_skip. rewrite app_nil_r. reflexivity.
Qed.

Lemma steps_held max_workers acts s s' :
  Pool.steps max_workers acts s = Some s' ->
  Permutation (held s') (held s ++ submissions acts).
Proof.
  revert s. induction acts as [|a acts IH]; intros s; simpl.
  - intros E; inversion E. now rewrite app_nil_r.
  - destruct (Pool.step max_workers a s) as [s1|] eqn:E1; [|discriminate].
    intros E. rewrite (IH _ E), (step_held _ _ _ _ E1).
    rewrite <- app_assoc. apply Permutation_app_head.
    destruct a; reflexivity.
Qed.

Lemma set_nth_nonempty {A} i (y : A) xs : xs <> [] -> Pool.set_nth i y xs <> [].
Proof. destruct xs, i; simpl; congruence. Qed.

Lemma step_staffed max_workers a s s' :
  (0 < max_workers)%nat ->
  Pool.step max_workers a s = Some s' -> staffed s -> staffed s'.
Proof.
  unfold staffed. intros K. destruct a as [x|i|i]; simpl.
  - destruct (Pool.idle_semaphore s) eqn:I.
    + destruct (List.length (Pool.threads s) <? max_workers)%nat eqn:L;
        intros E J _; inversion E; subst; simpl.
      * destruct (Pool.threads s); discriminate.
      * apply Nat.ltb_ge in L. destruct (Pool.threads s); simpl in *; [lia | discriminate].
    + intros E J _; inversion E; subst; simpl. apply J. left. discriminate.
  - destruct (nth_error (Pool.threads s) i) as [[y|]|] eqn:N; try discriminate.
    destruct (Pool.work_queue s) as [|x q]; try discriminate.
    intros E J _; inversion E; subst; simpl.
    apply set_nth_nonempty. destruct (Pool.threads s); [destruct i|]; discriminate.
  - destruct (nth_error (Pool.threads s) i) as [[x|]|] eqn:N; try discriminate.
    intros E J _; inversion E; subst; simpl.
    apply set_nth_nonempty. destruct (Pool.threads s); [destruct i|]; discriminate.
Qed.

Lemma steps_staffed max_workers acts s s' :
  (0 < max_workers)%nat ->
  Pool.steps max_workers acts s = Some s' -> staffed s -> staffed s'.
Proof.
  intros K. revert s. induction acts as [|a acts IH]; intros s; simpl.
  - intros E; inversion E; subst; auto.
  - destruct (Pool.step max_workers a s) as [s1|] eqn:E1; [|discriminate].
    intros E J. eapply IH; eauto using step_staffed.
Qed.

End PoolConservation.

(** X14. The pool of a fleet run neither loses nor duplicates a
    workflow, and never gets stuck. In every state it can reach, the servers
    that are queued, being run or finished are exactly the servers that were
    submitted, each as many times as it was submitted; and, the concurrency
    limit being positive, as long as a server waits in the queue some worker
    can take a task or end the one it runs. *)
Theorem pool_conserves_workflows config (acts : list (Pool.action Server)) s :
  0 < get (max_concurrent_installs config) 3 ->
  Pool.steps (pool_width config) acts Pool.empty = Some s ->
  Permutation (held s) (submissions acts)
  /\ (Pool.work_queue s <> [] ->
      exists i s',
        Pool.step (pool_width config) (Pool.Take i) s = Some s'
        \/ Pool.step (pool_width config) (Pool.Finish i) s = Some s').
Proof.
  intros K E. split.
  - apply (steps_held _ _ _ _ E).
  - intros Q.
    assert (J : staffed s).
    { apply (steps_staffed (pool_width config) acts Pool.empty s);
        [unfold pool_width; lia | exact E |].
      intros [H|H]; exfalso; apply H; reflexivity. }
    specialize (J (or_intror Q)).
    destruct (Pool.threads s) as [|[x|] ths] eqn:T; [congruence| |].
    + exists 0%nat. eexists. right. simpl. rewrite T. reflexivity.
    + exists 0%nat. destruct (Pool.work_queue s) as [|y q] eqn:W; [congruence|].
      eexists. left. simpl. rewrite T, W. reflexivity.
Qed.

Lemma pool_conserves_workflows_witness :
  let a := Sample.web1 in
  let b := Sample.win1 in
  let c := Sample.server "db1" None in
  let config := Sample.config [a; b; c] (Some 2) in
  let acts := [Pool.Submit a; Pool.Submit b; Pool.Take 1%nat; Pool.Submit c;
               Pool.Finish 1%nat; Pool.Take 0%nat] in
  exists s,
    Pool.steps (pool_width config) acts Pool.empty = Some s
    /\ Pool.work_queue s = [c] /\ Pool.running (Pool.threads s) = [b]
    /\ Pool.finished s = [a]
    /\ Permutation (held s) [a; b; c].
Proof.
  intros a b c config acts. eexists. split; [reflexivity|].
  split; [reflexivity|]. split; [reflexivity|]. split; [reflexivity|].
  exact (proj1 (pool_conserves_workflows config acts _ eq_refl eq_refl)).
Defined.

(** * Further properties: a failed install *)

Lemma download_splunk_package_before_install ssh_client download_url os_type :
  emits before_install (download_splunk_package ssh_client download_url os_type).
Proof.
  unfold download_splunk_package. repeat emits_step; repeat split.
Qed.

(** X15. When the install command exits with a nonzero status, the
    host's result is a failure of the install stage that carries the stripped
    error stream of the command (the stage prefix appears twice, once from the
    step and once from the workflow). The install command is the last one the
    host sees: no configuration command is sent, and the artifact is not
    removed. *)
Theorem install_failure_fails_host config w server ssh_client
    msg_r t_r sc url package_path t_f c o err :
  let os := get (os_type server) "linux" in
  session_of w server = inr ssh_client ->
  says_exists ssh_client [] installed_call = false
    \/ get (force_reinstall config) false = true ->
  check_system_resources config ssh_client [Exec installed_call]
    = (Return (true, msg_r), t_r) ->
  splunk_config config = Some sc -> download_url sc = Some url ->
  download_splunk_package ssh_client url os t_r = (Return (true, package_path), t_f) ->
  supported_os os = true ->
  install_cmd package_path = Some c ->
  respond ssh_client t_f (run_within c 300) = Reply o ->
  exit_status o <> 0 ->
  stderr o = Data err ->
  fst (install_on_server config w server)
    = Return {| res_host := host server; success := false;
                message := "安装失败: 安装失败: " ++ Py.strip err;
                timestamp := now_iso w (host server) |}
  /\ snd (install_on_server config w server)
     = (t_f ++ [Exec (run_within c 300); Close])%list
  /\ issued is_config_cmd (snd (install_on_server config w server)) = false
  /\ issued is_cleanup_cmd (snd (install_on_server config w server)) = false.
Proof.
  intros os S G Er Hsc Hurl Ef U C R X Herr.
  assert (Ei : install_splunk ssh_client package_path os t_f
               = (Return (false, "安装失败: " ++ Py.strip err),
                  (t_f ++ [Exec (run_within c 300)])%list)).
  { unfold install_splunk, try_except, bind, exec_command. rewrite U, C, R.
    apply Z.eqb_neq in X. rewrite X. cbn [negb]. rewrite Herr. reflexivity. }
  assert (W : workflow config server (fresh_result w server) ssh_client []
              = (Return (set_message (fresh_result w server)
                           ("安装失败: " ++ "安装失败: " ++ Py.strip err)),
                 (t_f ++ [Exec (run_within c 300)])%list)).
  { past_guards G Er. fold os. past_fetch Hsc Hurl Ef. rewrite Ei. reflexivity. }
  rewrite (install_on_server_open _ _ _ _ S). unfold try_finally, try_except.
  rewrite W. cbn [fst snd]. unfold close.
  split; [reflexivity|]. split; [now rewrite <- app_assoc|].
  destruct (guards_trace_class _ _ _ _ Er) as [_ [_ [Gc Gk]]].
  destruct (download_splunk_package_before_install _ _ _ _ _ _ Ef) as [calls [-> F]].
  destruct (install_cmd_class _ _ C) as [I _].
  assert (NC : is_config_cmd c = false /\ is_cleanup_cmd c = false).
  { revert C. unfold install_cmd.
    destruct (_ || _)%bool; [intros [= <-]; split; reflexivity|].
    destruct (Py.endswith package_path ".rpm"); [intros [= <-]; split; reflexivity|].
    destruct (Py.endswith package_path ".deb"); [intros [= <-]; split; reflexivity|].
    discriminate. }
  destruct NC as [Nc Nk].
  rewrite !issued_app, Gc, Gk.
  rewrite (issued_none is_config_cmd before_install calls),
    (issued_none is_cleanup_cmd before_install calls); auto;
    try (intros x Hx; apply Hx).
  cbn [issued existsb cmd run_within]. rewrite Nc, Nk. split; reflexivity.
Qed.

Lemma install_failure_fails_host_witness :
  let w := Sample.world [("web1", broken_archive)] FileNotFound in
  let run := install_on_server (Sample.config [Sample.web1] None) w Sample.web1 in
  fst run = Return {| res_host := "web1"; success := false;
                      message := "安装失败: 安装失败: tar: Unexpected EOF in archive";
                      timestamp := now_iso w "web1" |}
  /\ issued is_config_cmd (snd run) = false
  /\ issued is_cleanup_cmd (snd run) = false.
Proof.
  intros w run.
  edestruct (install_failure_fails_host (Sample.config [Sample.web1] None) w Sample.web1
               broken_archive) as [H1 [_ [H2 H3]]].
  - reflexivity.
  - left. reflexivity.
  - reflexivity.
  - reflexivity.
  - reflexivity.
  - reflexivity.
  - reflexivity.
  - reflexivity.
  - reflexivity.
  - cbn. discriminate.
  - reflexivity.
  - split; [exact H1|]. split; [exact H2 | exact H3].
Defined.
